(** * Transition matrix estimator: a shallow embedding of
      [Risco_de_Credito/transition_matrix_estimator.py]

    The development follows the class [TransitionMatrixLearner]:
    [__init__], [_count_matrix], [_clean_matrix], [fit] and [get_matrix].

    Conventions.
    - Count matrices are numpy [float64] arrays whose cells are whole-number
      transition counts (built by [mat[i, j] += 1]); they are modelled as
      lists of rows over [Z].  Raw bucket values and thresholds are
      integers ([buckets : List[int]]).
    - The output of the Laplace step holds fractions; it is modelled over
      the exact rationals [Q], so row sums are compared with [==].
    - Python dictionaries are [gmap]s; a failing dictionary lookup is
      [KeyError].
    - pandas' time-shifted self-join inside [fit] is not modelled: [fit]
      starts from the rows of the joined frame [merged]. *)

From Stdlib Require Import ZArith QArith Qabs Lia Lqa.
From stdpp Require Import base list gmap strings sorting.

Open Scope Z_scope.

(** ** Exceptions *)

Inductive exn :=
  | RuntimeError (msg : string)
  | ValueError (msg : string)
  | KeyError
  | IndexError.

Inductive result (A : Type) :=
  | Ok (a : A)
  | Raise (e : exn).
Arguments Ok {A} a.
Arguments Raise {A} e.

Definition rbind {A B} (x : result A) (f : A → result B) : result B :=
  match x with
  | Ok a => f a
  | Raise e => Raise e
  end.

Notation "x ←! e1 ; e2" := (rbind e1 (λ x, e2))
  (at level 100, e1 at next level, e2 at level 200, right associativity,
   format "x  ←!  e1 ;  '/' e2").

(** ** numpy array primitives *)

Abbreviation matrix := (list (list Z)).
Abbreviation qmatrix := (list (list Q)).

(** [a.sum()] on a one-dimensional array. *)
Definition sum_ (r : list Z) : Z := foldr Z.add 0 r.

(** [mat.sum(axis=1)]. *)
Definition sum_axis1 (mat : matrix) : list Z := sum_ <$> mat.

(** Sum of all cells. *)
Definition total_mass (mat : matrix) : Z := sum_ (sum_axis1 mat).

Definition Qsum (r : list Q) : Q := foldr Qplus 0%Q r.

(** [np.zeros((n, n))]. *)
Definition zeros (n : nat) : matrix := replicate n (replicate n 0).

(** [np.searchsorted(a, v, side="right")] on a sorted array: the index of
    the first element greater than [v] (the length when there is none). *)
Fixpoint searchsorted_right (a : list Z) (v : Z) : Z :=
  match a with
  | [] => 0
  | b :: a' => if bool_decide (b ≤ v) then 1 + searchsorted_right a' v else 0
  end.

(** Index normalisation of a numpy axis of length [len]: a negative index
    counts from the end, anything outside [-len .. len-1] is an
    [IndexError]. *)
Definition py_index (len : nat) (i : Z) : option nat :=
  if bool_decide (0 ≤ i < Z.of_nat len) then Some (Z.to_nat i)
  else if bool_decide (- Z.of_nat len ≤ i < 0) then
    Some (Z.to_nat (Z.of_nat len + i))
  else None.

(** Reads [r[i]] and [mat[i]] for an index in range.  Where the theorems
    below use them the index is in range; outside, where Python raises
    [IndexError], they read [0] and the empty row. *)
Definition cell (r : list Z) (i : nat) : Z := default 0 (r !! i).
Definition row (mat : matrix) (i : nat) : list Z := default [] (mat !! i).

(** [mat[i, j] += 1] for indices already normalised. *)
Definition incr_cell (i j : nat) (mat : matrix) : matrix :=
  alter (alter (Z.add 1) j) i mat.

(** ** The estimator object *)

Record TransitionMatrixLearner := mkLearner {
  buckets : list Z;
  alpha : Q;
  auto_rebin : bool;
  drop_empty : bool;
  min_count : Z;
  rebin_window : Z;
  cleaned_buckets : list Z;
  _mat_global : option qmatrix;
  _mat_by_gh : gmap string qmatrix;
  _mat_by_stage : gmap Z qmatrix
}.

(** [self.n = len(self.buckets)]; neither is reassigned after [__init__]. *)
Definition n (self : TransitionMatrixLearner) : nat := length (buckets self).

Definition __init__ (bs : list Z) (a : Q) (rebin drop : bool)
    (minc window : Z) : result TransitionMatrixLearner :=
  if rebin && drop then
    Raise (ValueError "Only one of auto_rebin or drop_empty can be True")
  else
    Ok {| buckets := merge_sort Z.le bs;
          alpha := a;
          auto_rebin := rebin;
          drop_empty := drop;
          min_count := minc;
          rebin_window := window;
          cleaned_buckets := merge_sort Z.le bs;
          _mat_global := None;
          _mat_by_gh := ∅;
          _mat_by_stage := ∅ |}.

Definition set_cleaned_buckets (self : TransitionMatrixLearner)
    (bs : list Z) : TransitionMatrixLearner :=
  {| buckets := buckets self; alpha := alpha self;
     auto_rebin := auto_rebin self; drop_empty := drop_empty self;
     min_count := min_count self; rebin_window := rebin_window self;
     cleaned_buckets := bs;
     _mat_global := _mat_global self;
     _mat_by_gh := _mat_by_gh self;
     _mat_by_stage := _mat_by_stage self |}.

Definition set_mat_global (self : TransitionMatrixLearner)
    (m : qmatrix) : TransitionMatrixLearner :=
  {| buckets := buckets self; alpha := alpha self;
     auto_rebin := auto_rebin self; drop_empty := drop_empty self;
     min_count := min_count self; rebin_window := rebin_window self;
     cleaned_buckets := cleaned_buckets self;
     _mat_global := Some m;
     _mat_by_gh := _mat_by_gh self;
     _mat_by_stage := _mat_by_stage self |}.

Definition set_mat_by_gh (self : TransitionMatrixLearner)
    (gh : string) (m : qmatrix) : TransitionMatrixLearner :=
  {| buckets := buckets self; alpha := alpha self;
     auto_rebin := auto_rebin self; drop_empty := drop_empty self;
     min_count := min_count self; rebin_window := rebin_window self;
     cleaned_buckets := cleaned_buckets self;
     _mat_global := _mat_global self;
     _mat_by_gh := <[gh := m]> (_mat_by_gh self);
     _mat_by_stage := _mat_by_stage self |}.

Definition set_mat_by_stage (self : TransitionMatrixLearner)
    (stage : Z) (m : qmatrix) : TransitionMatrixLearner :=
  {| buckets := buckets self; alpha := alpha self;
     auto_rebin := auto_rebin self; drop_empty := drop_empty self;
     min_count := min_count self; rebin_window := rebin_window self;
     cleaned_buckets := cleaned_buckets self;
     _mat_global := _mat_global self;
     _mat_by_gh := _mat_by_gh self;
     _mat_by_stage := <[stage := m]> (_mat_by_stage self) |}.

(** ** [_count_matrix] *)

(** The bucket lookup of lines 112-113:
    [np.searchsorted(self.buckets, value, side="right") - 1]. *)
Definition locate (self : TransitionMatrixLearner) (value : Z) : Z :=
  searchsorted_right (buckets self) value - 1.

(** One iteration of the loop body: [mat[i, j] += 1].  The indices go
    through numpy's index normalisation, so [-1] addresses the last row
    or column. *)
Definition count_step (self : TransitionMatrixLearner) (mat : matrix)
    (p : Z * Z) : result matrix :=
  let i := locate self p.1 in
  let j := locate self p.2 in
  match py_index (n self) i, py_index (n self) j with
  | Some i', Some j' => Ok (incr_cell i' j' mat)
  | _, _ => Raise IndexError
  end.

Fixpoint count_loop (self : TransitionMatrixLearner) (mat : matrix)
    (pairs : list (Z * Z)) : result matrix :=
  match pairs with
  | [] => Ok mat
  | p :: ps => mat' ←! count_step self mat p; count_loop self mat' ps
  end.

(** [pairs] is [zip(col_from, col_to)]. *)
Definition _count_matrix (self : TransitionMatrixLearner)
    (pairs : list (Z * Z)) : result matrix :=
  count_loop self (zeros (n self)) pairs.

(** ** [_clean_matrix]: the re-binning branch (lines 121-144) *)

(** Label distance [abs(self.buckets[x] - self.buckets[i])]. *)
Definition label_dist (self : TransitionMatrixLearner) (x i : nat) : Z :=
  Z.abs (cell (buckets self) x - cell (buckets self) i).

(** Python's [min(l, key=key)]: the first element whose key is minimal;
    the running best is replaced only by a strictly smaller key. *)
Fixpoint py_min_from (key : nat → Z) (best : nat) (l : list nat) : nat :=
  match l with
  | [] => best
  | x :: l' =>
      if bool_decide (key x < key best) then py_min_from key x l'
      else py_min_from key best l'
  end.

Definition py_min (key : nat → Z) (l : list nat) : option nat :=
  match l with
  | [] => None
  | x :: l' => Some (py_min_from key x l')
  end.

(** [non_empty = [i for i, s in enumerate(row_sums) if s >= self.min_count]] *)
Definition non_empty_rows (self : TransitionMatrixLearner)
    (row_sums : list Z) : list nat :=
  filter (λ i, min_count self ≤ cell row_sums i) (seq 0 (length row_sums)).

(** Lines 125-130: the donor of the sparse row [i], [None] when
    [non_empty] is empty (the [continue]). *)
Definition rebin_donor (self : TransitionMatrixLearner)
    (non_empty : list nat) (i : nat) : option nat :=
  match non_empty with
  | [] => None
  | _ :: _ =>
      let candidates :=
        filter (λ x, label_dist self x i ≤ rebin_window self) non_empty in
      let candidates :=
        match candidates with
        | [] => non_empty
        | _ :: _ => candidates
        end in
      py_min (λ x, label_dist self x i) candidates
  end.

(** [mat[j] += mat[i]] *)
Definition add_row (j i : nat) (mat : matrix) : matrix :=
  <[j := zip_with Z.add (row mat j) (row mat i)]> mat.

(** [mat[:, j] += mat[:, i]] *)
Definition add_col (j i : nat) (mat : matrix) : matrix :=
  (λ r : list Z, <[j := cell r j + cell r i]> r) <$> mat.

(** [mat[i] = 0] *)
Definition zero_row (i : nat) (mat : matrix) : matrix :=
  <[i := replicate (length (row mat i)) 0]> mat.

(** [mat[:, i] = 0] *)
Definition zero_col (i : nat) (mat : matrix) : matrix :=
  (λ r : list Z, <[i := 0]> r) <$> mat.

(** Lines 131-134, in source order. *)
Definition merge_into (i j : nat) (mat : matrix) : matrix :=
  zero_col i (zero_row i (add_col j i (add_row j i mat))).

(** Lines 135-136: [row_sums[j] += s; row_sums[i] = 0]. *)
Definition merge_sums (i j : nat) (s : Z) (row_sums : list Z) : list Z :=
  <[i := 0]> (<[j := cell row_sums j + s]> row_sums).

(** The body of [for i, s in enumerate(row_sums)].  The state is the
    matrix and the [row_sums] array, both mutated in place; [s] is read
    from the array when the iteration reaches [i]. *)
Definition rebin_step (self : TransitionMatrixLearner)
    (non_empty : list nat) (st : matrix * list Z) (i : nat)
    : matrix * list Z :=
  let s := cell st.2 i in
  if bool_decide (s < min_count self) then
    match rebin_donor self non_empty i with
    | None => st
    | Some j => (merge_into i j st.1, merge_sums i j s st.2)
    end
  else st.

(** The state of the loop when the iteration reaches row [k]. *)
Definition rebin_state (self : TransitionMatrixLearner) (mat : matrix)
    (k : nat) : matrix * list Z :=
  let row_sums := sum_axis1 mat in
  foldl (rebin_step self (non_empty_rows self row_sums))
        (mat, row_sums) (seq 0 k).

Definition rebin_pass (self : TransitionMatrixLearner) (mat : matrix)
    : matrix :=
  (rebin_state self mat (length mat)).1.

(** ** [_clean_matrix]: the dropping branch (lines 146-156) *)

(** [keep = [s >= self.min_count for s in row_sums]] *)
Definition keep_mask (self : TransitionMatrixLearner)
    (row_sums : list Z) : list bool :=
  (λ s, bool_decide (min_count self ≤ s)) <$> row_sums.

(** The index array numpy makes of a boolean mask ([mask.nonzero()]). *)
Fixpoint nonzero_from (k : nat) (mask : list bool) : list nat :=
  match mask with
  | [] => []
  | b :: mask' =>
      if b then k :: nonzero_from (S k) mask' else nonzero_from (S k) mask'
  end.

Definition nonzero (mask : list bool) : list nat := nonzero_from 0 mask.

(** [mat[np.ix_(rows, cols)]] for masks [rows] and [cols]: the cells at
    the crossings of the selected rows and columns. *)
Definition ix_select (rows cols : list bool) (mat : matrix) : matrix :=
  (λ a, (λ b, cell (row mat a) b) <$> nonzero cols) <$> nonzero rows.

(** [[b for b, k in zip(self.buckets, keep) if k]] *)
Definition kept_labels (bs : list Z) (keep : list bool) : list Z :=
  fst <$> filter (λ p : Z * bool, p.2 = true) (zip bs keep).

(** ** [_clean_matrix]: both phases *)

(** Lines 119-158: the matrix the Laplace step receives and the label
    list stored in [self.cleaned_buckets]. *)
Definition strategy_pass (self : TransitionMatrixLearner) (mat : matrix)
    : matrix * list Z :=
  let row_sums := sum_axis1 mat in
  if auto_rebin self then (rebin_pass self mat, buckets self)
  else if drop_empty self then
    let keep := keep_mask self row_sums in
    (ix_select keep keep mat, kept_labels (buckets self) keep)
  else (mat, buckets self).

(** Lines 164-165 for one row: [row = mat[i] + alpha; row / row.sum()]
    ([shifted] is the local [row]). *)
Definition laplace_row (a : Q) (r : list Z) : list Q :=
  let shifted := (λ x, inject_Z x + a)%Q <$> r in
  (λ y, y / Qsum shifted)%Q <$> shifted.

(** Lines 161-166: rows without positive mass keep the zeros of
    [np.zeros_like]. *)
Definition laplace (a : Q) (mat : matrix) : qmatrix :=
  (λ r, if bool_decide (0 < sum_ r) then laplace_row a r
        else replicate (length r) 0%Q) <$> mat.

(** The method returns [final] and leaves the label list in
    [self.cleaned_buckets]. *)
Definition _clean_matrix (self : TransitionMatrixLearner) (mat : matrix)
    : TransitionMatrixLearner * qmatrix :=
  let post := strategy_pass self mat in
  (set_cleaned_buckets self post.2, laplace (alpha self) post.1).

(** ** [fit] (lines 86-106) *)

(** A row of the joined frame [merged], by its columns: the bucket column
    with suffix [_t] (what [fit] hands to [_count_matrix] as origin and
    groups the stages on), the bucket column with suffix [_t1] (handed
    over as destination) and the group column with suffix [_t]. *)
Record transition := mkTransition {
  bucket_t : Z;
  bucket_t1 : Z;
  group_t : string
}.

Definition pairs_of (rows : list transition) : list (Z * Z) :=
  (λ r, (bucket_t r, bucket_t1 r)) <$> rows.

(** [DataFrame.groupby(key)]: one group per distinct key, keys in sorted
    order, each group holding its rows in frame order. *)
Definition groupby {K} `{EqDecision K} (le : relation K)
    `{∀ x y, Decision (le x y)} (key : transition → K)
    (rows : list transition) : list (K * list transition) :=
  (λ k, (k, filter (λ r, key r = k) rows))
    <$> merge_sort le (remove_dups (key <$> rows)).

Definition string_le (a b : string) : Prop := String.leb a b = true.

Global Instance string_le_dec a b : Decision (string_le a b).
Proof. unfold string_le. apply _. Defined.

(** Lines 94-98. *)
Fixpoint fit_groups (self : TransitionMatrixLearner)
    (groups : list (string * list transition))
    : result TransitionMatrixLearner :=
  match groups with
  | [] => Ok self
  | (gh, grp) :: rest =>
      counts ←! _count_matrix self (pairs_of grp);
      let '(self, m) := _clean_matrix self counts in
      fit_groups (set_mat_by_gh self gh m) rest
  end.

(** Lines 101-105; [int(idx)] is the identity on integer bucket values. *)
Fixpoint fit_stages (self : TransitionMatrixLearner)
    (groups : list (Z * list transition))
    : result TransitionMatrixLearner :=
  match groups with
  | [] => Ok self
  | (idx, grp) :: rest =>
      counts ←! _count_matrix self (pairs_of grp);
      let '(self, m) := _clean_matrix self counts in
      fit_stages (set_mat_by_stage self idx m) rest
  end.

Definition fit (self : TransitionMatrixLearner) (merged : list transition)
    (group_col : bool) : result TransitionMatrixLearner :=
  counts_global ←! _count_matrix self (pairs_of merged);
  let '(self, m) := _clean_matrix self counts_global in
  let self := set_mat_global self m in
  self ←! (if group_col then
             fit_groups self (groupby string_le group_t merged)
           else Ok self);
  fit_stages self (groupby Z.le bucket_t merged).

(** ** [get_matrix] (lines 169-178) *)

Definition get_matrix (self : TransitionMatrixLearner)
    (gh : option string) (stage : option Z) : result qmatrix :=
  if bool_decide (gh = None) && bool_decide (stage = None) then
    match _mat_global self with
    | None => Raise (RuntimeError "fit() not called yet")
    | Some m => Ok m
    end
  else
    match gh with
    | Some g =>
        match _mat_by_gh self !! g with
        | Some m => Ok m
        | None => Raise KeyError
        end
    | None =>
        match stage with
        | Some s =>
            match _mat_by_stage self !! s with
            | Some m => Ok m
            | None => Raise KeyError
            end
        | None =>
            Raise (ValueError
                     "Specify either gh or stage (or neither for global)")
        end
    end.

(** * Specification vocabulary *)

(** Shapes of the matrices the estimator handles. *)
Definition square (k : nat) (mat : matrix) : Prop :=
  length mat = k ∧ Forall (λ r, length r = k) mat.

(** A count matrix: [k] by [k], no negative cell. *)
Definition count_matrix (k : nat) (mat : matrix) : Prop :=
  square k mat ∧ Forall (Forall (λ c, 0 ≤ c)) mat.

(** The rows whose current total count reaches [min_count], in ascending
    order. *)
Definition populated_rows (self : TransitionMatrixLearner) (mat : matrix)
    : list nat :=
  filter (λ x, min_count self ≤ sum_ (row mat x)) (seq 0 (length mat)).

(** Row [x] lies within [rebin_window] of row [i], by label. *)
Definition in_window (self : TransitionMatrixLearner) (i x : nat) : Prop :=
  label_dist self x i ≤ rebin_window self.

(** What holds of the re-binning loop state whenever an iteration starts:
    the matrix is still [n] by [n], [row_sums] holds its current row
    totals, no total is negative, and [non_empty] (computed once, before
    the loop) is still the set of rows whose current total reaches
    [min_count]. *)
Definition rebin_inv (self : TransitionMatrixLearner) (non_empty : list nat)
    (st : matrix * list Z) : Prop :=
  square (n self) st.1
  ∧ st.2 = sum_axis1 st.1
  ∧ Forall (λ s, 0 ≤ s) st.2
  ∧ ∀ x, (x < n self)%nat → x ∈ non_empty ↔ min_count self ≤ cell st.2 x.

(** The options fixed by [__init__]; [fit] and [_clean_matrix] only ever
    reassign [cleaned_buckets] and the stored matrices. *)
Definition config (self : TransitionMatrixLearner)
    : list Z * Q * bool * bool * Z * Z :=
  (buckets self, alpha self, auto_rebin self, drop_empty self,
   min_count self, rebin_window self).

(** Two rows of the joined frame are counted into the same per-stage
    matrix: one group of the stage [groupby] holds both. *)
Definition same_stage_group (merged : list transition)
    (p q : transition) : Prop :=
  ∃ g, g ∈ groupby Z.le bucket_t merged ∧ p ∈ g.2 ∧ q ∈ g.2.

(** The reading "stages are origin bucket indices": rows whose origins
    fall in the same bucket interval share a stage matrix, and the fitted
    estimator [est] stores one stage matrix per observed origin bucket
    index. *)
Definition stages_by_bucket_index (self : TransitionMatrixLearner)
    (merged : list transition) (est : TransitionMatrixLearner) : Prop :=
  (∀ p q, p ∈ merged → q ∈ merged →
          locate self (bucket_t p) = locate self (bucket_t q) →
          same_stage_group merged p q)
  ∧ size (_mat_by_stage est)
    = length (remove_dups (locate self <$> (bucket_t <$> merged))).

(** * Concrete estimators and frames used in the examples *)

(** [TransitionMatrixLearner(buckets=[0, 15, 30])], every other option at
    its default. *)
Definition learner_default : TransitionMatrixLearner :=
  {| buckets := [0; 15; 30]; alpha := 1; auto_rebin := false;
     drop_empty := false; min_count := 10; rebin_window := 7;
     cleaned_buckets := [0; 15; 30];
     _mat_global := None; _mat_by_gh := ∅; _mat_by_stage := ∅ |}.

(** [TransitionMatrixLearner(buckets=[0, 15, 30], auto_rebin=True,
    min_count=2)]. *)
Definition learner_rebin : TransitionMatrixLearner :=
  {| buckets := [0; 15; 30]; alpha := 1; auto_rebin := true;
     drop_empty := false; min_count := 2; rebin_window := 7;
     cleaned_buckets := [0; 15; 30];
     _mat_global := None; _mat_by_gh := ∅; _mat_by_stage := ∅ |}.

(** [TransitionMatrixLearner(buckets=[0, 30], drop_empty=True,
    min_count=2)]. *)
Definition learner_drop : TransitionMatrixLearner :=
  {| buckets := [0; 30]; alpha := 1; auto_rebin := false;
     drop_empty := true; min_count := 2; rebin_window := 7;
     cleaned_buckets := [0; 30];
     _mat_global := None; _mat_by_gh := ∅; _mat_by_stage := ∅ |}.

(** A count matrix over three buckets whose middle row is sparse for
    [min_count = 2]. *)
Definition counts_sparse_middle : matrix :=
  [[1; 1; 1]; [0; 1; 0]; [2; 0; 3]].

(** A count matrix over two buckets whose second row is sparse for
    [min_count = 2]. *)
Definition counts_sparse_second : matrix := [[2; 0]; [1; 0]].

(** Two contracts of group ["a"], one of group ["b"]. *)
Definition frame_groups : list transition :=
  [mkTransition 0 15 "a"; mkTransition 15 15 "a"; mkTransition 0 0 "b"].

(** Two transitions whose raw origins, 17 and 20 days, both lie in the
    bucket [15, 30). *)
Definition frame_same_bucket : list transition :=
  [mkTransition 17 17 "a"; mkTransition 20 20 "a"].

(** Origins 0 and 30, each observed often enough to be kept globally. *)
Definition frame_drop : list transition :=
  [mkTransition 0 0 "a"; mkTransition 0 0 "a";
   mkTransition 30 30 "a"; mkTransition 30 30 "a"].


(** The estimators the fits below return, evaluated once. *)
Definition fitted_of (r : result TransitionMatrixLearner)
    : TransitionMatrixLearner :=
  match r with Ok e => e | Raise _ => learner_default end.

Definition est_groups : TransitionMatrixLearner :=
  Eval vm_compute in fitted_of (fit learner_default frame_groups true).

Definition est_plain : TransitionMatrixLearner :=
  Eval vm_compute in fitted_of (fit learner_default frame_groups false).

Definition est_same_bucket : TransitionMatrixLearner :=
  Eval vm_compute in
    fitted_of (fit learner_default frame_same_bucket false).

Definition est_refit : TransitionMatrixLearner :=
  Eval vm_compute in fitted_of (fit est_same_bucket frame_groups false).

Definition est_drop : TransitionMatrixLearner :=
  Eval vm_compute in fitted_of (fit learner_drop frame_drop true).


(** * Further vocabulary *)

(** The cell a transition is counted into: both lookups, each through
    numpy's index normalisation. *)
Definition target (self : TransitionMatrixLearner) (p : Z * Z)
    : option (nat * nat) :=
  match py_index (n self) (locate self p.1),
        py_index (n self) (locate self p.2) with
  | Some i, Some j => Some (i, j)
  | _, _ => None
  end.

(** How many of the transitions are counted into cell [(i, j)]. *)
Definition hits (self : TransitionMatrixLearner) (i j : nat)
    (pairs : list (Z * Z)) : nat :=
  length (filter (λ p, target self p = Some (i, j)) pairs).

(** Every cell is a probability. *)
Definition within_unit (m : qmatrix) : Prop :=
  Forall (Forall (λ y, 0 <= y ∧ y <= 1)%Q) m.

(** [k] by [k], for the cleaned matrices. *)
Definition qsquare (k : nat) (m : qmatrix) : Prop :=
  length m = k ∧ Forall (λ r, length r = k) m.
(** * Properties *)

(** ** Laplace step *)

Section laplace_facts.
Local Open Scope Q_scope.

Lemma Qsum_scale (s : Q) (row : list Q) :
  Qsum ((λ y, y / s) <$> row) == Qsum row / s.
Proof.
  induction row as [|y row IH]; simpl.
  - unfold Qdiv. ring.
  - rewrite IH. unfold Qdiv. ring.
Qed.

Lemma Qsum_shift (a : Q) (r : list Z) :
  Qsum ((λ x, inject_Z x + a) <$> r)
  == inject_Z (sum_ r) + inject_Z (Z.of_nat (length r)) * a.
Proof.
  induction r as [|x r IH].
  - simpl. unfold inject_Z. ring.
  - cbn [fmap list_fmap Qsum foldr sum_ length]. fold (Qsum ((λ x, inject_Z x + a) <$> r)).
    fold (sum_ r). rewrite IH, Nat2Z.inj_succ, <- Z.add_1_l, !inject_Z_plus.
    change (inject_Z 1) with 1. ring.
Qed.

Lemma Qsum_shift_pos (a : Q) (r : list Z) :
  0 <= a → (0 < sum_ r)%Z → 0 < Qsum ((λ x, inject_Z x + a) <$> r).
Proof.
  intros Ha Hr. rewrite Qsum_shift.
  assert (0 < inject_Z (sum_ r)) by (change 0 with (inject_Z 0); by rewrite <- Zlt_Qlt).
  assert (0 <= inject_Z (Z.of_nat (length r))).
  { change 0 with (inject_Z 0). rewrite <- Zle_Qle. lia. }
  assert (0 <= inject_Z (Z.of_nat (length r)) * a) by (by apply Qmult_le_0_compat).
  lra.
Qed.

Lemma laplace_row_sum (a : Q) (r : list Z) :
  0 <= a → (0 < sum_ r)%Z → Qsum (laplace_row a r) == 1.
Proof.
  intros Ha Hr. unfold laplace_row. rewrite Qsum_scale.
  pose proof (Qsum_shift_pos a r Ha Hr) as Hpos.
  field. intros Hz. rewrite Hz in Hpos. by apply Qlt_irrefl in Hpos.
Qed.
End laplace_facts.

Lemma laplace_lookup (a : Q) (mat : matrix) (i : nat) (r : list Z) :
  mat !! i = Some r →
  laplace a mat !! i
  = Some (if bool_decide (0 < sum_ r) then laplace_row a r
          else replicate (length r) 0%Q).
Proof. intros Hi. unfold laplace. by rewrite list_lookup_fmap, Hi. Qed.

(** C1.  Whatever the strategy (none, re-binning, dropping), with
    [alpha >= 0] every row [r] of the matrix handed to the Laplace step
    whose mass is positive is cleaned to
    [(r + alpha) / sum(r + alpha)], taken over the columns present after
    the strategy, and the cleaned row sums to one (exactly, over the
    rationals, hence within the tolerance [1e-9]). *)
Theorem clean_matrix_row_normalised (self : TransitionMatrixLearner)
    (mat : matrix) (i : nat) (r : list Z) :
  (0 <= alpha self)%Q →
  (strategy_pass self mat).1 !! i = Some r →
  0 < sum_ r →
  ∃ q : list Q,
    (_clean_matrix self mat).2 !! i = Some q
    ∧ q = (λ x, (inject_Z x + alpha self)
                / Qsum ((λ x, inject_Z x + alpha self) <$> r))%Q <$> r
    ∧ (Qsum q == 1)%Q
    ∧ (Qabs (Qsum q - 1) <= 1 # 1000000000)%Q.
Proof.
  intros Ha Hi Hr. exists (laplace_row (alpha self) r).
  assert (Hsum : (Qsum (laplace_row (alpha self) r) == 1)%Q)
    by (by apply laplace_row_sum).
  split; [|split; [|split]].
  - unfold _clean_matrix. cbn [snd]. rewrite (laplace_lookup _ _ _ _ Hi).
    by rewrite bool_decide_eq_true_2.
  - unfold laplace_row. by rewrite <- list_fmap_compose.
  - done.
  - rewrite Hsum. by vm_compute.
Qed.

Lemma clean_matrix_row_normalised_witness :
  ∃ q : list Q,
    (_clean_matrix learner_default counts_sparse_middle).2 !! 0%nat = Some q
    ∧ (Qsum q == 1)%Q.
Proof.
  destruct (clean_matrix_row_normalised learner_default
              counts_sparse_middle 0 [1; 1; 1])
    as (q & Hq & _ & Hsum & _).
  - unfold Qle. simpl. lia.
  - reflexivity.
  - reflexivity.
  - exists q. split; [exact Hq|exact Hsum].
Defined.
(** ** Dropping *)

Lemma nonzero_from_S (k : nat) (mask : list bool) :
  nonzero_from (S k) mask = S <$> nonzero_from k mask.
Proof.
  revert k. induction mask as [|b mask IH]; intros k; [done|].
  simpl. destruct b; simpl; by rewrite IH.
Qed.

Lemma filter_fmap_S (P : nat → Prop) `{∀ x, Decision (P x)} (l : list nat) :
  filter P (S <$> l) = S <$> filter (λ i, P (S i)) l.
Proof.
  induction l as [|x l IH]; [done|].
  rewrite fmap_cons, !filter_cons. destruct (decide (P (S x))); simpl; by rewrite IH.
Qed.

Lemma nonzero_keep_mask (self : TransitionMatrixLearner) (row_sums : list Z) :
  nonzero (keep_mask self row_sums)
  = filter (λ i, min_count self ≤ cell row_sums i) (seq 0 (length row_sums)).
Proof.
  unfold nonzero. induction row_sums as [|s rs IH]; [done|].
  cbn [keep_mask fmap list_fmap nonzero_from length seq].
  rewrite <- fmap_S_seq, filter_cons, filter_fmap_S, nonzero_from_S.
  fold (keep_mask self rs). rewrite IH.
  change (cell (s :: rs) 0) with s.
  destruct (decide (min_count self ≤ s)).
  - by rewrite bool_decide_eq_true_2.
  - by rewrite bool_decide_eq_false_2.
Qed.

Lemma kept_labels_nonzero_from (full : list Z) (k : nat) (keep : list bool) :
  length full = (k + length keep)%nat →
  kept_labels (drop k full) keep = (λ a, cell full a) <$> nonzero_from k keep.
Proof.
  revert k. induction keep as [|b keep IH]; intros k Hlen.
  - unfold kept_labels. by rewrite zip_with_nil_r.
  - simpl in Hlen.
    destruct (lookup_lt_is_Some_2 full k ltac:(lia)) as [x Hk].
    rewrite (drop_S _ _ _ Hk). unfold kept_labels in *.
    cbn [zip zip_with nonzero_from]. rewrite filter_cons.
    specialize (IH (S k) ltac:(lia)).
    destruct b; simpl; [f_equal; [unfold cell; by rewrite Hk|]|]; exact IH.
Qed.

Lemma kept_labels_nonzero (bs : list Z) (keep : list bool) :
  length bs = length keep →
  kept_labels bs keep = (λ a, cell bs a) <$> nonzero keep.
Proof. intros Hlen. exact (kept_labels_nonzero_from bs 0 keep Hlen). Qed.

Lemma cell_sum_axis1 (mat : matrix) (i : nat) :
  cell (sum_axis1 mat) i = sum_ (row mat i).
Proof.
  unfold cell, row, sum_axis1. rewrite list_lookup_fmap.
  by destruct (mat !! i).
Qed.

Lemma nonzero_keep_mask_rows (self : TransitionMatrixLearner) (mat : matrix) :
  nonzero (keep_mask self (sum_axis1 mat)) = populated_rows self mat.
Proof.
  rewrite nonzero_keep_mask. unfold populated_rows, sum_axis1.
  rewrite length_fmap. apply list_filter_iff. intros i.
  fold (sum_axis1 mat). by rewrite cell_sum_axis1.
Qed.

(** C3.  Dropping keeps exactly the buckets whose raw row total reaches
    [min_count]: the matrix handed to the Laplace step holds the cells at
    the crossings of the kept rows and the kept columns (one mask for both
    axes), the returned matrix is as large as the number of kept buckets,
    and the stored label list is the list of kept labels, in order. *)
Theorem drop_keeps_exactly (self : TransitionMatrixLearner) (mat : matrix) :
  auto_rebin self = false →
  drop_empty self = true →
  square (n self) mat →
  let kept := populated_rows self mat in
  let post := strategy_pass self mat in
  let out := _clean_matrix self mat in
  (∀ i, i ∈ kept ↔ (i < n self)%nat ∧ min_count self ≤ sum_ (row mat i))
  ∧ post.1 = (λ a, (λ b, cell (row mat a) b) <$> kept) <$> kept
  ∧ out.2 = laplace (alpha self) post.1
  ∧ length out.2 = length kept
  ∧ Forall (λ q, length q = length kept) out.2
  ∧ cleaned_buckets out.1 = (λ a, cell (buckets self) a) <$> kept
  ∧ length (cleaned_buckets out.1) = length kept.
Proof.
  intros Hre Hdr [Hlen Hrows] kept post out.
  assert (Hpost : post = (ix_select (keep_mask self (sum_axis1 mat))
                            (keep_mask self (sum_axis1 mat)) mat,
                          kept_labels (buckets self)
                            (keep_mask self (sum_axis1 mat)))).
  { subst post. unfold strategy_pass. by rewrite Hre, Hdr. }
  assert (Hmat : post.1 = (λ a, (λ b, cell (row mat a) b) <$> kept) <$> kept).
  { rewrite Hpost. cbn [fst]. unfold ix_select.
    by rewrite nonzero_keep_mask_rows. }
  assert (Hlab : cleaned_buckets out.1 = (λ a, cell (buckets self) a) <$> kept).
  { subst out. unfold _clean_matrix. cbn [fst cleaned_buckets set_cleaned_buckets].
    fold post. rewrite Hpost. cbn [snd].
    rewrite kept_labels_nonzero, nonzero_keep_mask_rows; [done|].
    unfold keep_mask, sum_axis1. rewrite !length_fmap. by rewrite Hlen. }
  split; [|split; [|split; [|split; [|split; [|split]]]]].
  - intros i. subst kept. unfold populated_rows.
    rewrite list_elem_of_filter, elem_of_seq, Hlen. intuition lia.
  - done.
  - done.
  - subst out. unfold _clean_matrix, laplace. cbn [snd]. fold post.
    by rewrite Hmat, !length_fmap.
  - subst out. unfold _clean_matrix, laplace. cbn [snd]. fold post.
    rewrite Hmat. rewrite <- !list_fmap_compose. apply Forall_fmap, Forall_forall.
    intros a _. simpl. case_bool_decide; unfold laplace_row;
      by rewrite ?length_replicate, ?length_fmap.
  - done.
  - by rewrite Hlab, length_fmap.
Qed.

Lemma drop_keeps_exactly_witness :
  (strategy_pass learner_drop counts_sparse_second).1 = [[2]]
  ∧ cleaned_buckets (_clean_matrix learner_drop counts_sparse_second).1 = [0].
Proof.
  destruct (drop_keeps_exactly learner_drop counts_sparse_second)
    as (_ & Hpost & _ & _ & _ & Hlabels & _).
  - reflexivity.
  - reflexivity.
  - split; [reflexivity|]. repeat constructor.
  - split; [exact Hpost|exact Hlabels].
Defined.

(** ** Re-binning *)

Lemma cell_lookup (r : list Z) (i : nat) (x : Z) :
  r !! i = Some x → cell r i = x.
Proof. unfold cell. by intros ->. Qed.

Lemma row_lookup (mat : matrix) (i : nat) (r : list Z) :
  mat !! i = Some r → row mat i = r.
Proof. unfold row. by intros ->. Qed.

Lemma cell_insert_eq (r : list Z) (i : nat) (v : Z) :
  (i < length r)%nat → cell (<[i := v]> r) i = v.
Proof. intros Hi. unfold cell. by rewrite list_lookup_insert_eq. Qed.

Lemma cell_insert_ne (r : list Z) (i j : nat) (v : Z) :
  i ≠ j → cell (<[i := v]> r) j = cell r j.
Proof. intros Hij. unfold cell. by rewrite list_lookup_insert_ne. Qed.

Lemma sum_insert (r : list Z) (j : nat) (v : Z) :
  (j < length r)%nat → sum_ (<[j := v]> r) = sum_ r - cell r j + v.
Proof.
  revert j. induction r as [|x r IH]; intros j Hj; simpl in Hj; [lia|].
  destruct j as [|j].
    change (v + sum_ r = x + sum_ r - x + v). lia.
  - change (x + sum_ (<[j := v]> r) = x + sum_ r - cell r j + v).
    rewrite IH by lia. lia.
Qed.

Lemma sum_insert_zero (r : list Z) (i : nat) :
  sum_ (<[i := 0]> r) = sum_ r - cell r i.
Proof.
  destruct (decide (i < length r)%nat) as [Hi|Hi].
  - rewrite sum_insert by done. lia.
  - rewrite list_insert_ge by lia. unfold cell.
    rewrite lookup_ge_None_2 by lia. simpl. lia.
Qed.

Lemma sum_zip_add (r1 r2 : list Z) :
  length r1 = length r2 → sum_ (zip_with Z.add r1 r2) = sum_ r1 + sum_ r2.
Proof.
  revert r2. induction r1 as [|x r1 IH]; intros [|y r2] Hlen;
    simpl in Hlen; try done.
  cbn. fold (sum_ r1) (sum_ r2) (sum_ (zip_with Z.add r1 r2)).
  rewrite IH by lia. lia.
Qed.

Lemma sum_replicate_zero (k : nat) : sum_ (replicate k 0) = 0.
Proof. induction k as [|k IH]; [done|]. cbn. by fold (sum_ (replicate k 0)). Qed.

Lemma cell_replicate_zero (k i : nat) : cell (replicate k 0) i = 0.
Proof.
  unfold cell. destruct (replicate k 0 !! i) as [c|] eqn:Hc; [|done].
  apply list_elem_of_lookup_2, elem_of_replicate in Hc. by destruct Hc.
Qed.

Lemma sum_nonneg (r : list Z) : Forall (λ c, 0 ≤ c) r → 0 ≤ sum_ r.
Proof.
  induction 1 as [|x r Hx _ IH]; [done|]. cbn. fold (sum_ r). lia.
Qed.

(** Moving column [i] into column [j] and clearing column [i] leaves the
    sum of a row unchanged. *)
Lemma sum_move_cell (r : list Z) (i j : nat) :
  i ≠ j → (j < length r)%nat →
  sum_ (<[i := 0]> (<[j := cell r j + cell r i]> r)) = sum_ r.
Proof.
  intros Hij Hj. rewrite sum_insert_zero, sum_insert by done.
  rewrite cell_insert_ne by done. lia.
Qed.

Lemma merge_into_lookup (i j k : nat) (mat : matrix) :
  merge_into i j mat !! k
  = (λ r : list Z, <[i := 0]> r) <$>
      (<[i := replicate (length (row (add_col j i (add_row j i mat)) i)) 0]>
         (add_col j i (add_row j i mat)) !! k).
Proof. unfold merge_into, zero_col, zero_row. by rewrite list_lookup_fmap. Qed.

Lemma square_lookup (k : nat) (mat : matrix) (i : nat) :
  square k mat → (i < k)%nat → ∃ r, mat !! i = Some r ∧ length r = k.
Proof.
  intros [Hlen Hrows] Hi.
  destruct (lookup_lt_is_Some_2 mat i ltac:(lia)) as [r Hr].
  exists r. split; [done|]. by eapply (Forall_lookup_1 _ _ _ _ Hrows).
Qed.

Lemma merge_into_square (k i j : nat) (mat : matrix) :
  square k mat → (i < k)%nat → (j < k)%nat → square k (merge_into i j mat).
Proof.
  intros Hsq Hi Hj.
  destruct (square_lookup _ _ _ Hsq Hi) as (ri & Hri & Hli).
  destruct (square_lookup _ _ _ Hsq Hj) as (rj & Hrj & Hlj).
  destruct Hsq as [Hlen Hrows].
  assert (Hsq1 : Forall (λ r, length r = k) (add_row j i mat)).
  { unfold add_row. apply Forall_insert; [done|].
    rewrite (row_lookup _ _ _ Hri), (row_lookup _ _ _ Hrj).
    rewrite length_zip_with. lia. }
  assert (Hsq2 : Forall (λ r, length r = k) (add_col j i (add_row j i mat))).
  { unfold add_col. apply Forall_fmap. eapply Forall_impl; [exact Hsq1|].
    intros r Hr. simpl. by rewrite length_insert. }
  split.
  - unfold merge_into, zero_col, zero_row, add_col, add_row.
    by rewrite length_fmap, length_insert, length_fmap, length_insert.
  - unfold merge_into, zero_col. apply Forall_fmap.
    unfold zero_row. apply Forall_insert.
    + eapply Forall_impl; [exact Hsq2|].
      intros r Hr. simpl. by rewrite length_insert.
    + simpl. rewrite length_insert, length_replicate.
      unfold row. destruct (add_col j i (add_row j i mat) !! i) as [r|] eqn:Hr.
      * simpl. by eapply (Forall_lookup_1 _ _ _ _ Hsq2).
      * apply lookup_ge_None_1 in Hr.
        unfold add_col, add_row in Hr.
        rewrite length_fmap, length_insert in Hr. lia.
Qed.

(** The bookkeeping of lines 135-136 is exact: after a merge of row [i]
    into a different row [j] the array [row_sums] again holds the row
    totals of the matrix. *)
Lemma merge_into_row_sums (k i j : nat) (mat : matrix) :
  square k mat → (i < k)%nat → (j < k)%nat → i ≠ j →
  sum_axis1 (merge_into i j mat)
  = merge_sums i j (cell (sum_axis1 mat) i) (sum_axis1 mat).
Proof.
  intros Hsq Hi Hj Hij.
  destruct (square_lookup _ _ _ Hsq Hi) as (ri & Hri & Hli).
  destruct (square_lookup _ _ _ Hsq Hj) as (rj & Hrj & Hlj).
  pose proof Hsq as [Hlen Hrows].
  apply list_eq. intros x.
  unfold sum_axis1 at 1. rewrite list_lookup_fmap, merge_into_lookup.
  unfold merge_sums.
  assert (Hs : ∀ y r, mat !! y = Some r → cell (sum_axis1 mat) y = sum_ r).
  { intros y r Hr. unfold cell, sum_axis1. by rewrite list_lookup_fmap, Hr. }
  destruct (decide (x = i)) as [->|Hxi].
  - rewrite list_lookup_insert_eq.
    2:{ unfold add_col, add_row. rewrite length_fmap, length_insert. lia. }
    rewrite list_lookup_insert_eq.
    2:{ unfold sum_axis1. rewrite length_insert, length_fmap. lia. }
    simpl. f_equal.
    by rewrite sum_insert_zero, sum_replicate_zero, cell_replicate_zero.
  - rewrite !(list_lookup_insert_ne _ i x) by done.
    unfold add_col. rewrite list_lookup_fmap.
    destruct (decide (x = j)) as [->|Hxj].
    + unfold add_row. rewrite list_lookup_insert_eq by lia.
      rewrite list_lookup_insert_eq.
      2:{ unfold sum_axis1. rewrite length_fmap. lia. }
      simpl. f_equal.
      rewrite (row_lookup _ _ _ Hri), (row_lookup _ _ _ Hrj).
      rewrite sum_move_cell; [|done|rewrite length_zip_with; lia].
      rewrite sum_zip_add by lia.
      by rewrite (Hs _ _ Hri), (Hs _ _ Hrj).
    + unfold add_row. rewrite !list_lookup_insert_ne by done.
      unfold sum_axis1. rewrite list_lookup_fmap.
      destruct (mat !! x) as [r|] eqn:Hr; simpl; [|done].
      f_equal. apply sum_move_cell; [done|].
      by rewrite (Forall_lookup_1 _ _ _ _ Hrows Hr).
Qed.

Lemma merge_sums_total (i j : nat) (row_sums : list Z) :
  (i < length row_sums)%nat → (j < length row_sums)%nat → i ≠ j →
  sum_ (merge_sums i j (cell row_sums i) row_sums) = sum_ row_sums.
Proof.
  intros Hi Hj Hij. unfold merge_sums.
  rewrite sum_insert_zero, sum_insert by done.
  rewrite cell_insert_ne by done. lia.
Qed.

(** *** Donor selection *)

Lemma py_min_from_elem (key : nat → Z) (best : nat) (l : list nat) :
  py_min_from key best l ∈ best :: l.
Proof.
  revert best. induction l as [|y l IH]; intros best; simpl.
  - apply list_elem_of_here.
  - case_bool_decide.
    + apply list_elem_of_further, IH.
    + pose proof (IH best) as Hin.
      apply elem_of_cons in Hin as [Heq|Hin].
      * rewrite Heq. apply list_elem_of_here.
      * by do 2 apply list_elem_of_further.
Qed.

Lemma py_min_from_le (key : nat → Z) (best : nat) (l : list nat) (x : nat) :
  x ∈ best :: l → key (py_min_from key best l) ≤ key x.
Proof.
  revert best x. induction l as [|y l IH]; intros best x Hx; simpl.
  - apply list_elem_of_singleton in Hx. by subst.
  - case_bool_decide as Hlt.
    + apply elem_of_cons in Hx as [->|Hx]; [|by apply IH].
      pose proof (IH y y ltac:(apply list_elem_of_here)). lia.
    + apply elem_of_cons in Hx as [->|Hx].
      * apply IH, list_elem_of_here.
      * apply elem_of_cons in Hx as [->|Hx].
        -- pose proof (IH best best ltac:(apply list_elem_of_here)). lia.
        -- by apply IH, list_elem_of_further.
Qed.

Lemma py_min_Some (key : nat → Z) (l : list nat) (j : nat) :
  py_min key l = Some j → j ∈ l ∧ ∀ x, x ∈ l → key j ≤ key x.
Proof.
  destruct l as [|y l]; [done|]. intros [= <-]. split.
  - apply py_min_from_elem.
  - intros x. apply py_min_from_le.
Qed.

Section donor.
Context (self : TransitionMatrixLearner).

Lemma rebin_donor_None (non_empty : list nat) (i : nat) :
  rebin_donor self non_empty i = None ↔ non_empty = [].
Proof.
  split; [|by intros ->].
  destruct non_empty as [|x0 ne]; [done|]. unfold rebin_donor.
  intros Hnone.
  destruct (filter _ (x0 :: ne)) as [|c cs]; simpl in Hnone; done.
Qed.

Lemma rebin_donor_Some (non_empty : list nat) (i j : nat) :
  rebin_donor self non_empty i = Some j →
  j ∈ non_empty
  ∧ ((∃ x, x ∈ non_empty ∧ in_window self i x) →
       in_window self i j
       ∧ ∀ x, x ∈ non_empty → in_window self i x →
              label_dist self j i ≤ label_dist self x i)
  ∧ ((¬ ∃ x, x ∈ non_empty ∧ in_window self i x) →
       ∀ x, x ∈ non_empty → label_dist self j i ≤ label_dist self x i).
Proof.
  destruct non_empty as [|x0 ne]; [done|]. unfold rebin_donor.
  set (full := x0 :: ne).
  destruct (filter _ full) as [|c cs] eqn:Hc; intros Hj;
    apply py_min_Some in Hj as [Hin Hmin].
  - split; [done|]. split.
    + intros (x & Hx & Hw). exfalso.
      assert (x ∈ filter (λ x, label_dist self x i ≤ rebin_window self) full)
        as Hf by (by apply list_elem_of_filter).
      rewrite Hc in Hf. by apply elem_of_nil in Hf.
    + intros _ x Hx. by apply Hmin.
  - rewrite <- Hc in Hin, Hmin. apply list_elem_of_filter in Hin as [Hw Hin].
    split; [done|]. split.
    + intros _. split; [done|]. intros x Hx Hxw.
      by apply Hmin, list_elem_of_filter.
    + intros Hno. exfalso. apply Hno. by exists j.
Qed.
End donor.

(** *** The loop invariant *)

Lemma filter_ext_in {A} (P Q : A → Prop) `{∀ x, Decision (P x)}
    `{∀ x, Decision (Q x)} (l : list A) :
  (∀ x, x ∈ l → P x ↔ Q x) → filter P l = filter Q l.
Proof.
  induction l as [|x l IH]; intros HPQ; [done|].
  rewrite !filter_cons.
  pose proof (HPQ x ltac:(apply list_elem_of_here)) as Hx.
  rewrite IH by (intros y Hy; by apply HPQ, list_elem_of_further).
  destruct (decide (P x)), (decide (Q x)); tauto.
Qed.

Section rebin.
Context (self : TransitionMatrixLearner).

Lemma non_empty_rows_elem (row_sums : list Z) (x : nat) :
  x ∈ non_empty_rows self row_sums
  ↔ (x < length row_sums)%nat ∧ min_count self ≤ cell row_sums x.
Proof.
  unfold non_empty_rows. rewrite list_elem_of_filter, elem_of_seq.
  intuition lia.
Qed.

Lemma rebin_inv_init (mat : matrix) :
  count_matrix (n self) mat →
  rebin_inv self (non_empty_rows self (sum_axis1 mat)) (mat, sum_axis1 mat).
Proof.
  intros [Hsq Hpos]. split; [done|]. split; [done|]. split.
  - unfold sum_axis1. apply Forall_fmap.
    eapply Forall_impl; [exact Hpos|]. intros r Hr. by apply sum_nonneg.
  - intros x Hx. cbn [snd]. rewrite non_empty_rows_elem.
    unfold sum_axis1 at 1. rewrite length_fmap.
    destruct Hsq as [-> _]. tauto.
Qed.

(** One iteration keeps the invariant and the sum of the totals. *)
Lemma rebin_step_inv (non_empty : list nat) (st : matrix * list Z)
    (i : nat) :
  rebin_inv self non_empty st →
  (∀ x, x ∈ non_empty → (x < n self)%nat) →
  (i < n self)%nat →
  rebin_inv self non_empty (rebin_step self non_empty st i)
  ∧ sum_ (rebin_step self non_empty st i).2 = sum_ st.2.
Proof.
  intros Hinv Hrange Hi. pose proof Hinv as (Hsq & Hrs & Hpos & Hne).
  unfold rebin_step. case_bool_decide as Hs; [|done].
  destruct (rebin_donor self non_empty i) as [j|] eqn:Hd; [|done].
  apply rebin_donor_Some in Hd as (Hj & _).
  pose proof (Hrange j Hj) as Hjn.
  assert (Hij : i ≠ j).
  { intros ->. apply Hne in Hj; [lia|done]. }
  assert (Hlen : length st.2 = n self).
  { rewrite Hrs. unfold sum_axis1. rewrite length_fmap. by destruct Hsq. }
  assert (Hsi : 0 ≤ cell st.2 i).
  { unfold cell. destruct (st.2 !! i) as [s|] eqn:Hsi; [|done].
    simpl. by apply (Forall_lookup_1 _ _ _ _ Hpos Hsi). }
  assert (Hsj : 0 ≤ cell st.2 j).
  { unfold cell. destruct (st.2 !! j) as [s|] eqn:Hsj; [|done].
    simpl. by apply (Forall_lookup_1 _ _ _ _ Hpos Hsj). }
  split; [split; [|split; [|split]]|]; cbn [fst snd].
  - by apply merge_into_square.
  - rewrite (merge_into_row_sums (n self)) by done. by rewrite <- Hrs.
  - unfold merge_sums. apply Forall_insert; [|done].
    apply Forall_insert; [done|lia].
  - intros x Hx. unfold merge_sums.
    destruct (decide (x = i)) as [->|Hxi].
    + rewrite cell_insert_eq by (rewrite length_insert; lia).
      rewrite (Hne i Hi). lia.
    + rewrite cell_insert_ne by done.
      destruct (decide (x = j)) as [->|Hxj].
      * rewrite cell_insert_eq by lia.
        pose proof (proj1 (Hne j Hjn) Hj). split; [lia|done].
      * rewrite cell_insert_ne by done. by apply Hne.
  - apply merge_sums_total; [lia|lia|done].
Qed.

Lemma rebin_state_S (mat : matrix) (k : nat) :
  rebin_state self mat (S k)
  = rebin_step self (non_empty_rows self (sum_axis1 mat))
      (rebin_state self mat k) k.
Proof. unfold rebin_state. by rewrite seq_S, foldl_snoc. Qed.

Lemma rebin_state_inv (mat : matrix) (k : nat) :
  count_matrix (n self) mat → (k ≤ n self)%nat →
  rebin_inv self (non_empty_rows self (sum_axis1 mat))
    (rebin_state self mat k)
  ∧ sum_ (rebin_state self mat k).2 = total_mass mat.
Proof.
  intros Hcm. induction k as [|k IH]; intros Hk.
  - split; [by apply rebin_inv_init|done].
  - destruct IH as [Hinv Hsum]; [lia|].
    rewrite rebin_state_S.
    destruct (rebin_step_inv _ _ k Hinv) as [Hinv' Hsum']; [|lia|].
    + intros x Hx. apply non_empty_rows_elem in Hx as [Hx _].
      unfold sum_axis1 in Hx. rewrite length_fmap in Hx.
      destruct Hcm as [[Hl _] _]. lia.
    + split; [done|]. by rewrite Hsum'.
Qed.
End rebin.

(** A single merge of row [i] into another row [j] moves mass without
    creating or destroying any. *)
Lemma merge_into_total (k i j : nat) (mat : matrix) :
  square k mat → (i < k)%nat → (j < k)%nat → i ≠ j →
  total_mass (merge_into i j mat) = total_mass mat.
Proof.
  intros Hsq Hi Hj Hij. unfold total_mass.
  rewrite (merge_into_row_sums k) by done.
  assert (length (sum_axis1 mat) = k)
    by (unfold sum_axis1; rewrite length_fmap; by destruct Hsq).
  apply merge_sums_total; [lia|lia|done].
Qed.

(** C2.  Re-binning conserves the total mass of a count matrix: the matrix
    handed to the Laplace step has exactly the mass of the raw one; and
    each merge of a row [i] into another row [j] conserves it. *)
Theorem rebin_conserves_mass (self : TransitionMatrixLearner) (mat : matrix) :
  auto_rebin self = true →
  count_matrix (n self) mat →
  total_mass (strategy_pass self mat).1 = total_mass mat
  ∧ ∀ i j (m : matrix),
      square (n self) m → (i < n self)%nat → (j < n self)%nat → i ≠ j →
      total_mass (merge_into i j m) = total_mass m.
Proof.
  intros Hre Hcm. split.
  - unfold strategy_pass. rewrite Hre. cbn [fst]. unfold rebin_pass.
    assert (Hlen : length mat = n self) by (by destruct Hcm as [[-> _] _]).
    rewrite Hlen.
    destruct (rebin_state_inv self mat (n self) Hcm) as [Hinv Hsum]; [lia|].
    destruct Hinv as (_ & Hrs & _). unfold total_mass at 1.
    by rewrite <- Hrs.
  - intros i j m. apply merge_into_total.
Qed.

Lemma rebin_conserves_mass_witness :
  total_mass (strategy_pass learner_rebin counts_sparse_middle).1 = 9.
Proof.
  refine (proj1 (rebin_conserves_mass learner_rebin counts_sparse_middle
                   eq_refl _)).
  split; [split; [reflexivity|repeat constructor]|].
  repeat first [apply Forall_cons; split | apply Forall_nil]; lia.
Defined.

Lemma populated_rows_stable (self : TransitionMatrixLearner)
    (row_sums : list Z) (st : matrix * list Z) :
  length row_sums = n self →
  rebin_inv self (non_empty_rows self row_sums) st →
  populated_rows self st.1 = non_empty_rows self row_sums.
Proof.
  intros Hlen (Hsq & Hrs & _ & Hne).
  unfold populated_rows, non_empty_rows.
  destruct Hsq as [Hl _]. rewrite Hl, Hlen.
  apply filter_ext_in. intros x Hx. apply elem_of_seq in Hx.
  rewrite <- cell_sum_axis1, <- Hrs, <- Hne by lia.
  rewrite non_empty_rows_elem. intuition lia.
Qed.

(** C5.  When the loop reaches a row [i] whose count is below
    [min_count], the array [row_sums] holds the current row totals (earlier
    merges included) and the donor is taken among the rows [D] whose
    current total reaches [min_count]: a row of [D] within [rebin_window]
    of [i] at the least label distance when there is one, otherwise a row
    of [D] at the least label distance overall; with [D] empty the state
    is left as it is.  Rows are visited by ascending index, hence by
    ascending label ([buckets] is sorted by [__init__]). *)
Theorem rebin_donor_choice (self : TransitionMatrixLearner) (mat : matrix)
    (i : nat) :
  count_matrix (n self) mat →
  (i < n self)%nat →
  let st := rebin_state self mat i in
  let next := rebin_state self mat (S i) in
  let D := populated_rows self st.1 in
  st.2 = sum_axis1 st.1
  ∧ (min_count self ≤ sum_ (row st.1 i) → next = st)
  ∧ (sum_ (row st.1 i) < min_count self →
       (D = [] → next = st)
       ∧ (D ≠ [] →
            ∃ j, j ∈ D ∧ j ≠ i
              ∧ next = (merge_into i j st.1,
                        merge_sums i j (sum_ (row st.1 i)) st.2)
              ∧ ((∃ x, x ∈ D ∧ in_window self i x) →
                   in_window self i j
                   ∧ ∀ x, x ∈ D → in_window self i x →
                          label_dist self j i ≤ label_dist self x i)
              ∧ ((¬ ∃ x, x ∈ D ∧ in_window self i x) →
                   ∀ x, x ∈ D →
                        label_dist self j i ≤ label_dist self x i))).
Proof.
  intros Hcm Hi st next D.
  destruct (rebin_state_inv self mat i Hcm) as [Hinv _]; [lia|].
  fold st in Hinv.
  assert (Hlen : length (sum_axis1 mat) = n self).
  { unfold sum_axis1. rewrite length_fmap. by destruct Hcm as [[-> _] _]. }
  assert (HD : D = non_empty_rows self (sum_axis1 mat))
    by (by apply populated_rows_stable).
  pose proof Hinv as (Hsq & Hrs & Hpos & Hne).
  assert (Hs : cell st.2 i = sum_ (row st.1 i))
    by (by rewrite Hrs, cell_sum_axis1).
  assert (Hnext : next = rebin_step self (non_empty_rows self (sum_axis1 mat))
                           st i) by apply rebin_state_S.
  split; [done|]. split.
  - intros Hge. rewrite Hnext. unfold rebin_step.
    rewrite bool_decide_eq_false_2; [done|lia].
  - intros Hlt. rewrite Hnext, HD. unfold rebin_step.
    rewrite bool_decide_eq_true_2 by lia. split.
    + intros Hempty.
      by rewrite (proj2 (rebin_donor_None self _ i) Hempty).
    + intros Hnonempty.
      destruct (rebin_donor self _ i) as [j|] eqn:Hd.
      2:{ by apply rebin_donor_None in Hd. }
      exists j. rewrite Hs.
      pose proof (rebin_donor_Some self _ i j Hd) as (Hj & Hwin & Hall).
      split; [done|]. split; [|done].
      intros ->. pose proof (proj1 (Hne i Hi) Hj). lia.
Qed.

Lemma rebin_donor_choice_witness :
  ∃ j : nat,
    j ∈ populated_rows learner_rebin counts_sparse_middle
    ∧ j ≠ 1%nat
    ∧ rebin_state learner_rebin counts_sparse_middle 2
      = (merge_into 1 j counts_sparse_middle, merge_sums 1 j 1 [3; 1; 5]).
Proof.
  assert (Hcm : count_matrix (n learner_rebin) counts_sparse_middle).
  { split; [split; [reflexivity|repeat constructor]|].
    repeat first [apply Forall_cons; split | apply Forall_nil]; lia. }
  assert (Hi : (1 < n learner_rebin)%nat) by (unfold n; simpl; lia).
  pose proof (rebin_donor_choice learner_rebin counts_sparse_middle 1 Hcm Hi)
    as H.
  cbv zeta in H. destruct H as (_ & _ & H).
  destruct (H eq_refl) as [_ H2].
  destruct H2 as (j & Hj & Hne & Hnext & _); [discriminate|].
  exists j. split; [exact Hj|]. split; [exact Hne|exact Hnext].
Defined.

(** ** Rows without mass *)

Lemma merge_into_length (i j : nat) (mat : matrix) :
  length (merge_into i j mat) = length mat.
Proof.
  unfold merge_into, zero_col, zero_row, add_col, add_row.
  by rewrite length_fmap, length_insert, length_fmap, length_insert.
Qed.

Lemma rebin_step_length (self : TransitionMatrixLearner)
    (non_empty : list nat) (st : matrix * list Z) (i : nat) :
  length (rebin_step self non_empty st i).1 = length st.1.
Proof.
  unfold rebin_step. case_bool_decide; [|done].
  destruct (rebin_donor self non_empty i); [|done].
  apply merge_into_length.
Qed.

Lemma rebin_state_length (self : TransitionMatrixLearner) (mat : matrix)
    (k : nat) :
  length (rebin_state self mat k).1 = length mat.
Proof.
  induction k as [|k IH]; [done|].
  by rewrite rebin_state_S, rebin_step_length.
Qed.

(** Without a strategy and under re-binning the matrix keeps its size. *)
Lemma strategy_pass_length (self : TransitionMatrixLearner) (mat : matrix) :
  auto_rebin self = true ∨ drop_empty self = false →
  length (strategy_pass self mat).1 = length mat.
Proof.
  intros Hs. unfold strategy_pass.
  destruct (auto_rebin self).
  - apply rebin_state_length.
  - destruct Hs as [? | ->]; done.
Qed.

(** A row of a count matrix that starts without mass never gains any
    during re-binning. *)
Lemma rebin_zero_row_stays (self : TransitionMatrixLearner) (mat : matrix)
    (x k : nat) :
  count_matrix (n self) mat → (x < n self)%nat → (k ≤ n self)%nat →
  sum_ (row mat x) = 0 →
  cell (rebin_state self mat k).2 x = 0.
Proof.
  intros Hcm Hx Hk Hzero. induction k as [|k IH].
  - cbn. by rewrite cell_sum_axis1.
  - specialize (IH ltac:(lia)).
    destruct (rebin_state_inv self mat k Hcm) as [Hinv _]; [lia|].
    destruct Hinv as (Hsq & Hrs & Hpos & Hne).
    rewrite rebin_state_S. unfold rebin_step.
    case_bool_decide as Hs; [|done].
    destruct (rebin_donor self _ k) as [j|] eqn:Hd; [|done].
    apply rebin_donor_Some in Hd as (Hj & _).
    assert (Hlen : length (rebin_state self mat k).2 = n self).
    { rewrite Hrs. unfold sum_axis1. rewrite length_fmap. by destruct Hsq. }
    assert (Hjn : (j < n self)%nat).
    { apply non_empty_rows_elem in Hj as [Hj _].
      unfold sum_axis1 in Hj. rewrite length_fmap in Hj.
      destruct Hcm as [[Hl _] _]. lia. }
    assert (Hsk : 0 ≤ cell (rebin_state self mat k).2 k).
    { unfold cell. destruct (_ !! k) as [s|] eqn:Hsk; [|done].
      simpl. by apply (Forall_lookup_1 _ _ _ _ Hpos Hsk). }
    cbn [snd]. unfold merge_sums.
    destruct (decide (x = k)) as [->|Hxk].
    + apply cell_insert_eq. rewrite length_insert. lia.
    + rewrite cell_insert_ne by done.
      destruct (decide (x = j)) as [->|Hxj].
      * apply (Hne j Hjn) in Hj. lia.
      * by rewrite cell_insert_ne.
Qed.

(** C4.  Without a strategy and under re-binning the matrix keeps its
    size, and a row whose mass after the strategy pass is zero is returned
    as the zero vector, whatever [alpha] is; in particular a row of a
    count matrix whose raw mass is zero is returned as the zero vector. *)
Theorem clean_matrix_zero_row (self : TransitionMatrixLearner)
    (mat : matrix) (i : nat) :
  auto_rebin self = true ∨ drop_empty self = false →
  let post := (strategy_pass self mat).1 in
  let final := (_clean_matrix self mat).2 in
  length post = length mat
  ∧ (∀ r, post !! i = Some r → sum_ r = 0 →
          final !! i = Some (replicate (length r) 0%Q))
  ∧ (count_matrix (n self) mat → (i < n self)%nat →
     sum_ (row mat i) = 0 →
     final !! i = Some (replicate (n self) 0%Q)).
Proof.
  intros Hs post final.
  assert (Hzero : ∀ r, post !! i = Some r → sum_ r = 0 →
                       final !! i = Some (replicate (length r) 0%Q)).
  { intros r Hi Hr. subst final. unfold _clean_matrix. cbn [snd].
    fold post. rewrite (laplace_lookup _ _ _ _ Hi).
    rewrite bool_decide_eq_false_2; [done|lia]. }
  split; [by apply strategy_pass_length|]. split; [done|].
  intros Hcm Hi Hraw.
  assert (Hpost : ∃ r, post !! i = Some r ∧ length r = n self ∧ sum_ r = 0).
  { subst post. unfold strategy_pass.
    destruct (auto_rebin self) eqn:Hre.
    - cbn [fst]. unfold rebin_pass.
      assert (Hl : length mat = n self) by (by destruct Hcm as [[-> _] _]).
      rewrite Hl.
      destruct (rebin_state_inv self mat (n self) Hcm) as [Hinv _]; [lia|].
      destruct Hinv as (Hsq & Hrs & _).
      destruct (square_lookup _ _ _ Hsq Hi) as (r & Hr & Hlr).
      exists r. split; [done|]. split; [done|].
      rewrite <- (row_lookup _ _ _ Hr), <- cell_sum_axis1, <- Hrs.
      by apply rebin_zero_row_stays.
    - destruct Hs as [? | ->]; [done|]. cbn [fst].
      destruct Hcm as [Hsq _].
      destruct (square_lookup _ _ _ Hsq Hi) as (r & Hr & Hlr).
      exists r. by rewrite <- (row_lookup _ _ _ Hr) at 3. }
  destruct Hpost as (r & Hr & Hlr & Hsum).
  rewrite <- Hlr. by apply Hzero.
Qed.

Lemma clean_matrix_zero_row_witness :
  (_clean_matrix learner_rebin counts_sparse_middle).2 !! 1%nat
  = Some [0; 0; 0]%Q.
Proof.
  refine (proj1 (proj2 (clean_matrix_zero_row learner_rebin
                          counts_sparse_middle 1 (or_introl eq_refl)))
            [0; 0; 0] eq_refl eq_refl).
Defined.

(** ** Counting *)

(** [__init__] stores the thresholds in ascending order, so the index order
    of the rows is the order of the labels. *)
Lemma init_buckets_sorted (bs : list Z) (a : Q) (rebin drop : bool)
    (minc window : Z) (self : TransitionMatrixLearner) :
  __init__ bs a rebin drop minc window = Ok self →
  Sorted Z.le (buckets self)
  ∧ buckets self ≡ₚ bs
  ∧ cleaned_buckets self = buckets self.
Proof.
  unfold __init__. destruct (rebin && drop); [done|]. intros [= <-].
  cbn [buckets cleaned_buckets]. split; [|split; [|done]].
  - apply Sorted_merge_sort; apply _.
  - apply merge_sort_Permutation.
Qed.

Lemma searchsorted_right_bounds (a : list Z) (v : Z) :
  0 ≤ searchsorted_right a v ≤ Z.of_nat (length a).
Proof.
  induction a as [|b a IH]; simpl; [lia|]. case_bool_decide; lia.
Qed.

(** Every threshold before the insertion point is at most [v]. *)
Lemma searchsorted_right_le (a : list Z) (v : Z) (k : nat) (x : Z) :
  a !! k = Some x → Z.of_nat k < searchsorted_right a v → x ≤ v.
Proof.
  revert k. induction a as [|b a IH]; intros k Hk Hlt; [done|].
  simpl in Hlt. case_bool_decide as Hb; [|lia].
  destruct k as [|k]; simpl in Hk.
  - by injection Hk as <-.
  - apply (IH k Hk). lia.
Qed.

(** The threshold at the insertion point, when there is one, exceeds [v]. *)
Lemma searchsorted_right_gt (a : list Z) (v : Z) (x : Z) :
  a !! Z.to_nat (searchsorted_right a v) = Some x → v < x.
Proof.
  induction a as [|b a IH]; [done|]. simpl.
  case_bool_decide as Hb.
  - pose proof (searchsorted_right_bounds a v).
    replace (Z.to_nat (1 + searchsorted_right a v))
      with (S (Z.to_nat (searchsorted_right a v))) by lia.
    apply IH.
  - simpl. intros [= <-]. lia.
Qed.

Lemma py_index_in_range (len : nat) (i : Z) :
  0 ≤ i < Z.of_nat len → py_index len i = Some (Z.to_nat i).
Proof. intros Hi. unfold py_index. by rewrite bool_decide_eq_true_2. Qed.

(** [-1] addresses the last position of a non-empty axis. *)
Lemma py_index_minus_one (len : nat) :
  (0 < len)%nat → py_index len (-1) = Some (len - 1)%nat.
Proof.
  intros Hlen. unfold py_index.
  rewrite bool_decide_eq_false_2 by lia.
  rewrite bool_decide_eq_true_2 by lia. f_equal. lia.
Qed.

(** From the smallest threshold upwards the lookup returns the bucket
    whose interval holds the value. *)
Lemma locate_in_bucket (self : TransitionMatrixLearner) (value b0 : Z) :
  buckets self !! 0%nat = Some b0 →
  b0 ≤ value →
  let i := locate self value in
  0 ≤ i < Z.of_nat (n self)
  ∧ py_index (n self) i = Some (Z.to_nat i)
  ∧ cell (buckets self) (Z.to_nat i) ≤ value
  ∧ (i = Z.of_nat (n self) - 1
     ∨ value < cell (buckets self) (Z.to_nat (i + 1))).
Proof.
  intros Hb0 Hle i. subst i. unfold locate, n.
  pose proof (searchsorted_right_bounds (buckets self) value) as Hbd.
  assert (Hpos : 1 ≤ searchsorted_right (buckets self) value).
  { destruct (buckets self) as [|b a]; [done|]. injection Hb0 as ->.
    simpl. rewrite bool_decide_eq_true_2 by done.
    pose proof (searchsorted_right_bounds a value). lia. }
  assert (Hrange : 0 ≤ searchsorted_right (buckets self) value - 1
                   < Z.of_nat (length (buckets self))) by lia.
  split; [done|]. split; [by apply py_index_in_range|]. split.
  - destruct (lookup_lt_is_Some_2 (buckets self)
                (Z.to_nat (searchsorted_right (buckets self) value - 1))
                ltac:(lia)) as [x Hx].
    rewrite (cell_lookup _ _ _ Hx).
    apply (searchsorted_right_le _ _ _ _ Hx). lia.
  - destruct (decide (searchsorted_right (buckets self) value
                      = Z.of_nat (length (buckets self)))) as [Heq|Hne];
      [left; lia|right].
    replace (searchsorted_right (buckets self) value - 1 + 1)
      with (searchsorted_right (buckets self) value) by lia.
    destruct (lookup_lt_is_Some_2 (buckets self)
                (Z.to_nat (searchsorted_right (buckets self) value))
                ltac:(lia)) as [x Hx].
    rewrite (cell_lookup _ _ _ Hx).
    by apply (searchsorted_right_gt _ _ _ Hx).
Qed.

(** Below the smallest threshold, or with no threshold at all, the lookup
    returns [-1]. *)
Lemma locate_below (self : TransitionMatrixLearner) (value : Z) :
  (∀ b0, buckets self !! 0%nat = Some b0 → value < b0) →
  locate self value = -1.
Proof.
  intros Hlt. unfold locate. destruct (buckets self) as [|b a]; [done|].
  simpl. specialize (Hlt b eq_refl).
  rewrite bool_decide_eq_false_2 by lia. done.
Qed.

(** With at least one bucket, a transition whose origin lies below the
    smallest threshold raises nothing: it is counted in the last row. *)
Lemma count_step_below (self : TransitionMatrixLearner) (mat : matrix)
    (src dst b0 : Z) (j : nat) :
  buckets self !! 0%nat = Some b0 →
  src < b0 →
  py_index (n self) (locate self dst) = Some j →
  count_step self mat (src, dst) = Ok (incr_cell (n self - 1) j mat).
Proof.
  intros Hb0 Hsrc Hj. unfold count_step. cbn [fst snd].
  rewrite (locate_below self src).
  2:{ intros b Hb. rewrite Hb0 in Hb. by injection Hb as <-. }
  rewrite py_index_minus_one, Hj; [done|].
  unfold n. apply lookup_lt_Some in Hb0. lia.
Qed.

(** C6 (defect).  With [buckets = [0, 15, 30]] the value [-5] lies below
    the smallest threshold; the lookup yields [-1] and [_count_matrix]
    raises nothing: the transition [-5 -> 0] is counted in the row of the
    last bucket. *)
Theorem count_below_range_wraps :
  locate learner_default (-5) = -1
  ∧ _count_matrix learner_default [(-5, 0)]
    = Ok [[0; 0; 0]; [0; 0; 0]; [1; 0; 0]].
Proof. split; reflexivity. Qed.

(** ** The stored matrices *)

(** *** Only the configuration matters to counting and cleaning *)

Lemma count_loop_config (s1 s2 : TransitionMatrixLearner)
    (pairs : list (Z * Z)) (mat : matrix) :
  config s1 = config s2 → count_loop s1 mat pairs = count_loop s2 mat pairs.
Proof.
  intros Hc. assert (Hb : buckets s1 = buckets s2) by (by injection Hc).
  revert mat. induction pairs as [|p ps IH]; intros mat; [done|].
  simpl. unfold count_step, locate, n. rewrite Hb.
  destruct (py_index (length (buckets s2))
              (searchsorted_right (buckets s2) p.1 - 1)); [|done].
  destruct (py_index (length (buckets s2))
              (searchsorted_right (buckets s2) p.2 - 1)); [|done].
  simpl. apply IH.
Qed.

Lemma count_matrix_config (s1 s2 : TransitionMatrixLearner)
    (pairs : list (Z * Z)) :
  config s1 = config s2 → _count_matrix s1 pairs = _count_matrix s2 pairs.
Proof.
  intros Hc. unfold _count_matrix, n.
  assert (Hb : buckets s1 = buckets s2) by (by injection Hc).
  rewrite Hb. by apply count_loop_config.
Qed.

Lemma strategy_pass_config (s1 s2 : TransitionMatrixLearner) (mat : matrix) :
  config s1 = config s2 → strategy_pass s1 mat = strategy_pass s2 mat.
Proof.
  destruct s1, s2. unfold config. simpl.
  intros [= -> -> -> -> -> ->]. reflexivity.
Qed.

Lemma clean_matrix_config (s1 s2 : TransitionMatrixLearner) (mat : matrix) :
  config s1 = config s2 →
  (_clean_matrix s1 mat).2 = (_clean_matrix s2 mat).2
  ∧ cleaned_buckets (_clean_matrix s1 mat).1
    = cleaned_buckets (_clean_matrix s2 mat).1.
Proof.
  intros Hc. unfold _clean_matrix. cbn [fst snd cleaned_buckets set_cleaned_buckets].
  rewrite (strategy_pass_config s1 s2 mat Hc).
  assert (Ha : alpha s1 = alpha s2) by (by injection Hc).
  by rewrite Ha.
Qed.

(** *** [groupby] *)

Section groupby_facts.
Context {K : Type} `{EqDecision K} (le : relation K)
        `{∀ x y, Decision (le x y)} (key : transition → K).

Lemma groupby_keys (rows : list transition) :
  (groupby le key rows).*1 = merge_sort le (remove_dups (key <$> rows)).
Proof.
  unfold groupby.
  induction (merge_sort le (remove_dups (key <$> rows))) as [|k l IH];
    [done|]. rewrite !fmap_cons. cbn [fst]. by rewrite IH.
Qed.

Lemma groupby_keys_NoDup (rows : list transition) :
  NoDup (groupby le key rows).*1.
Proof.
  rewrite groupby_keys, merge_sort_Permutation. apply NoDup_remove_dups.
Qed.

Lemma groupby_key_elem (rows : list transition) (k : K) :
  k ∈ (groupby le key rows).*1 ↔ k ∈ key <$> rows.
Proof.
  by rewrite groupby_keys, merge_sort_Permutation, elem_of_remove_dups.
Qed.

Lemma groupby_elem (rows : list transition) (k : K)
    (grp : list transition) :
  (k, grp) ∈ groupby le key rows
  ↔ k ∈ key <$> rows ∧ grp = filter (λ r, key r = k) rows.
Proof.
  unfold groupby. rewrite list_elem_of_fmap. split.
  - intros (k' & [= -> ->] & Hk).
    by rewrite merge_sort_Permutation, elem_of_remove_dups in Hk.
  - intros [Hk ->]. exists k. split; [done|].
    by rewrite merge_sort_Permutation, elem_of_remove_dups.
Qed.

Lemma groupby_nil_inv (rows : list transition) :
  groupby le key rows = [] → rows = [].
Proof.
  intros Hnil. destruct rows as [|r rows]; [done|]. exfalso.
  assert (key r ∈ (groupby le key (r :: rows)).*1) as Hin.
  { apply groupby_key_elem. rewrite fmap_cons. apply list_elem_of_here. }
  rewrite Hnil in Hin. by apply elem_of_nil in Hin.
Qed.
End groupby_facts.

Lemma StronglySorted_last_max (l : list Z) (k : Z) :
  StronglySorted Z.le l → last l = Some k → ∀ x, x ∈ l → x ≤ k.
Proof.
  induction 1 as [|y l Hl IH Hy]; intros Hlast x Hx; [done|].
  rewrite last_cons in Hlast. destruct (last l) as [z|] eqn:Hz.
  - injection Hlast as ->.
    apply elem_of_cons in Hx as [->|Hx]; [|by apply IH].
    apply last_Some in Hz as [l' ->].
    rewrite Forall_app, Forall_singleton in Hy. by destruct Hy.
  - injection Hlast as ->. destruct l as [|z l].
    + apply list_elem_of_singleton in Hx. by subst.
    + rewrite last_cons in Hz. by destruct (last l).
Qed.

(** The last group of the stage [groupby] belongs to the greatest raw
    origin value in the frame. *)
Lemma groupby_stage_last (merged : list transition) (k : Z)
    (grp : list transition) :
  last (groupby Z.le bucket_t merged) = Some (k, grp) →
  (k, grp) ∈ groupby Z.le bucket_t merged
  ∧ ∀ p, p ∈ merged → bucket_t p ≤ k.
Proof.
  intros Hlast. split.
  - apply last_Some in Hlast as [l' ->].
    apply elem_of_app. right. apply list_elem_of_here.
  - intros p Hp.
    apply (StronglySorted_last_max (groupby Z.le bucket_t merged).*1).
    + rewrite groupby_keys. apply StronglySorted_merge_sort; apply _.
    + by rewrite fmap_last, Hlast.
    + apply groupby_key_elem, list_elem_of_fmap. by exists p.
Qed.

(** *** [fit] *)

Lemma fit_groups_spec (groups : list (string * list transition))
    (self est : TransitionMatrixLearner) :
  fit_groups self groups = Ok est →
  config est = config self
  ∧ _mat_global est = _mat_global self
  ∧ _mat_by_stage est = _mat_by_stage self
  ∧ (groups = [] → est = self).
Proof.
  revert self. induction groups as [|[gh grp] rest IH]; intros self Hfit.
  - by injection Hfit as <-.
  - simpl in Hfit.
    destruct (_count_matrix self (pairs_of grp)) as [counts|e]; [|done].
    simpl in Hfit. apply IH in Hfit as (Hc & Hg & Hs & _).
    by rewrite Hc, Hg, Hs.
Qed.

Lemma fit_stages_spec (groups : list (Z * list transition))
    (self est : TransitionMatrixLearner) :
  fit_stages self groups = Ok est →
  NoDup groups.*1 →
  config est = config self
  ∧ _mat_global est = _mat_global self
  ∧ _mat_by_gh est = _mat_by_gh self
  ∧ dom (_mat_by_stage est)
    = dom (_mat_by_stage self) ∪ list_to_set groups.*1
  ∧ (∀ k, k ∉ groups.*1 → _mat_by_stage est !! k = _mat_by_stage self !! k)
  ∧ (∀ k grp, (k, grp) ∈ groups →
       ∃ counts, _count_matrix self (pairs_of grp) = Ok counts
         ∧ _mat_by_stage est !! k = Some (_clean_matrix self counts).2)
  ∧ (∀ k grp, last groups = Some (k, grp) →
       ∃ counts, _count_matrix self (pairs_of grp) = Ok counts
         ∧ cleaned_buckets est
           = cleaned_buckets (_clean_matrix self counts).1)
  ∧ (groups = [] → est = self).
Proof.
  revert self. induction groups as [|[k0 grp0] rest IH]; intros self Hfit Hnd.
  - injection Hfit as <-. repeat split; try done.
    + simpl. by rewrite union_empty_r_L.
    + intros k grp Hin. by apply elem_of_nil in Hin.
  - simpl in Hfit.
    destruct (_count_matrix self (pairs_of grp0)) as [counts|e] eqn:Hcount;
      [|done].
    simpl in Hfit.
    set (self' := set_mat_by_stage (_clean_matrix self counts).1 k0
                    (_clean_matrix self counts).2) in *.
    assert (Hcfg : config self' = config self) by done.
    rewrite fmap_cons in Hnd. cbn [fst] in Hnd.
    apply NoDup_cons in Hnd as [Hk0 Hnd].
    destruct (IH self' Hfit Hnd)
      as (Hc & Hg & Hgh & Hdom & Hother & Hin & Hlast & Hnil).
    split; [by rewrite Hc|]. split; [by rewrite Hg|].
    split; [by rewrite Hgh|]. split; [|split; [|split; [|split]]].
    + rewrite Hdom. subst self'. cbn [_mat_by_stage set_mat_by_stage].
      rewrite dom_insert_L, fmap_cons. cbn [fst list_to_set].
      cbn [_mat_by_stage set_cleaned_buckets _clean_matrix fst].
      apply set_eq. intros x.
      rewrite !elem_of_union, elem_of_singleton. tauto.
    + intros k Hk. rewrite fmap_cons in Hk. cbn [fst] in Hk.
      apply not_elem_of_cons in Hk as [Hne Hk].
      rewrite (Hother k Hk). subst self'.
      cbn [_mat_by_stage set_mat_by_stage]. by rewrite lookup_insert_ne.
    + intros k grp Hkg. apply elem_of_cons in Hkg as [[= -> ->]|Hkg].
      * exists counts. split; [done|]. rewrite (Hother k0 Hk0).
        subst self'. cbn [_mat_by_stage set_mat_by_stage].
        by rewrite lookup_insert_eq.
      * destruct (Hin k grp Hkg) as (c & Hc1 & Hc2).
        exists c. rewrite (count_matrix_config self' self) in Hc1 by done.
        split; [done|].
        by rewrite Hc2, (proj1 (clean_matrix_config self' self c Hcfg)).
    + intros k grp Hl. rewrite last_cons in Hl.
      destruct (last rest) as [[k1 grp1]|] eqn:Hlr.
      * injection Hl as -> ->.
        destruct (Hlast k grp eq_refl) as (c & Hc1 & Hc2).
        exists c. rewrite (count_matrix_config self' self) in Hc1 by done.
        split; [done|].
        by rewrite Hc2, (proj2 (clean_matrix_config self' self c Hcfg)).
      * injection Hl as -> ->. exists counts. split; [done|].
        assert (rest = []) as Hrest.
        { destruct rest as [|x rest']; [done|].
          rewrite last_cons in Hlr. by destruct (last rest'). }
        by rewrite (Hnil Hrest).
    + done.
Qed.

Lemma fit_spec (self est : TransitionMatrixLearner)
    (merged : list transition) (group_col : bool) :
  fit self merged group_col = Ok est →
  ∃ counts_global,
    _count_matrix self (pairs_of merged) = Ok counts_global
    ∧ config est = config self
    ∧ _mat_global est = Some (_clean_matrix self counts_global).2
    ∧ dom (_mat_by_stage est)
      = dom (_mat_by_stage self) ∪ list_to_set (bucket_t <$> merged)
    ∧ (∀ k grp, (k, grp) ∈ groupby Z.le bucket_t merged →
         ∃ counts, _count_matrix self (pairs_of grp) = Ok counts
           ∧ _mat_by_stage est !! k = Some (_clean_matrix self counts).2)
    ∧ (∀ k grp, last (groupby Z.le bucket_t merged) = Some (k, grp) →
         ∃ counts, _count_matrix self (pairs_of grp) = Ok counts
           ∧ cleaned_buckets est
             = cleaned_buckets (_clean_matrix self counts).1)
    ∧ (merged = [] →
         cleaned_buckets est
         = cleaned_buckets (_clean_matrix self counts_global).1).
Proof.
  unfold fit. intros Hfit.
  destruct (_count_matrix self (pairs_of merged)) as [cg|e] eqn:Hcg; [|done].
  exists cg. split; [done|].
  pose (self2 := set_mat_global (_clean_matrix self cg).1
                   (_clean_matrix self cg).2).
  assert (Hcfg2 : config self2 = config self) by done.
  change (rbind (if group_col
                 then fit_groups self2 (groupby string_le group_t merged)
                 else Ok self2)
            (λ s, fit_stages s (groupby Z.le bucket_t merged)) = Ok est)
    in Hfit.
  destruct (if group_col
            then fit_groups self2 (groupby string_le group_t merged)
            else Ok self2) as [self3|e] eqn:Hgr; [|done].
  cbn [rbind] in Hfit.
  assert (H3 : config self3 = config self2
               ∧ _mat_global self3 = _mat_global self2
               ∧ _mat_by_stage self3 = _mat_by_stage self2
               ∧ (merged = [] → self3 = self2)).
  { destruct group_col.
    - apply fit_groups_spec in Hgr as (? & ? & ? & Hnil).
      repeat split; try done. intros ->. by apply Hnil.
    - by injection Hgr as <-. }
  destruct H3 as (Hc3 & Hg3 & Hs3 & Hnil3).
  assert (Hcfg3 : config self3 = config self) by (by rewrite Hc3).
  destruct (fit_stages_spec _ _ _ Hfit (groupby_keys_NoDup Z.le bucket_t merged))
    as (Hc & Hg & _ & Hdom & _ & Hin & Hlast & Hnil).
  split; [by rewrite Hc|]. split; [by rewrite Hg, Hg3|].
  split; [|split; [|split]].
  - rewrite Hdom, Hs3. f_equal. apply set_eq. intros k.
    by rewrite !elem_of_list_to_set, groupby_key_elem.
  - intros k grp Hkg. destruct (Hin k grp Hkg) as (c & Hc1 & Hc2).
    exists c. rewrite (count_matrix_config self3 self) in Hc1 by done.
    split; [done|].
    by rewrite Hc2, (proj1 (clean_matrix_config self3 self c Hcfg3)).
  - intros k grp Hl. destruct (Hlast k grp Hl) as (c & Hc1 & Hc2).
    exists c. rewrite (count_matrix_config self3 self) in Hc1 by done.
    split; [done|].
    by rewrite Hc2, (proj2 (clean_matrix_config self3 self c Hcfg3)).
  - intros ->. rewrite (Hnil eq_refl), (Hnil3 eq_refl). done.
Qed.

(** *** [get_matrix] *)

(** A group selector decides the answer on its own: [stage] is not looked
    at. *)
Lemma get_matrix_gh_first (self : TransitionMatrixLearner) (g : string)
    (stage : option Z) :
  get_matrix self (Some g) stage
  = match _mat_by_gh self !! g with
    | Some m => Ok m
    | None => Raise KeyError
    end.
Proof. unfold get_matrix. by rewrite bool_decide_eq_false_2. Qed.

(** The [ValueError] of line 178 cannot be reached. *)
Lemma get_matrix_never_ValueError (self : TransitionMatrixLearner)
    (gh : option string) (stage : option Z) (msg : string) :
  get_matrix self gh stage ≠ Raise (ValueError msg).
Proof.
  unfold get_matrix. destruct gh as [g|], stage as [s|]; simpl.
  - by destruct (_mat_by_gh self !! g).
  - by destruct (_mat_by_gh self !! g).
  - by destruct (_mat_by_stage self !! s).
  - by destruct (_mat_global self).
Qed.

(** C7 (defect).  After fitting [frame_groups] with groups, a query that
    supplies both the group ["a"] and the stage [0] raises nothing: it
    returns the matrix stored for group ["a"]. *)
Theorem get_matrix_both_selectors :
  ∃ est m,
    fit learner_default frame_groups true = Ok est
    ∧ _mat_by_gh est !! "a" = Some m
    ∧ get_matrix est (Some "a") (Some 0) = Ok m.
Proof.
  eexists _, _. split; [vm_compute; reflexivity|].
  split; vm_compute; reflexivity.
Qed.

(** C8 (defect).  On an estimator fresh from [__init__] only the global
    query reports that [fit] was not called; a query by group or by stage
    fails with the [KeyError] of the empty dictionary. *)
Theorem get_matrix_unfitted (bs : list Z) (a : Q) (rebin drop : bool)
    (minc window : Z) (self : TransitionMatrixLearner) :
  __init__ bs a rebin drop minc window = Ok self →
  get_matrix self None None = Raise (RuntimeError "fit() not called yet")
  ∧ (∀ g stage, get_matrix self (Some g) stage = Raise KeyError)
  ∧ (∀ s, get_matrix self None (Some s) = Raise KeyError).
Proof.
  unfold __init__. destruct (rebin && drop); [done|]. intros [= <-].
  split; [done|]. split.
  - intros g stage. rewrite get_matrix_gh_first. cbn [_mat_by_gh].
    by rewrite lookup_empty.
  - intros s. unfold get_matrix. cbn. by rewrite lookup_empty.
Qed.

Lemma get_matrix_unfitted_witness :
  get_matrix learner_default None None
    = Raise (RuntimeError "fit() not called yet")
  ∧ (∀ g stage, get_matrix learner_default (Some g) stage = Raise KeyError)
  ∧ (∀ s, get_matrix learner_default None (Some s) = Raise KeyError).
Proof.
  apply (get_matrix_unfitted [0; 15; 30] 1 false false 10 7).
  reflexivity.
Defined.

(** *** Per-stage matrices *)

Lemma same_stage_group_iff (merged : list transition) (p q : transition) :
  p ∈ merged → q ∈ merged →
  same_stage_group merged p q ↔ bucket_t p = bucket_t q.
Proof.
  intros Hp Hq. unfold same_stage_group. split.
  - intros ([k grp] & Hg & Hpg & Hqg). cbn [snd] in Hpg, Hqg.
    apply groupby_elem in Hg as [_ ->].
    apply list_elem_of_filter in Hpg as [-> _].
    by apply list_elem_of_filter in Hqg as [-> _].
  - intros Heq.
    exists (bucket_t p, filter (λ r, bucket_t r = bucket_t p) merged).
    split; [|split].
    + apply groupby_elem. split; [|done].
      apply list_elem_of_fmap. by exists p.
    + by apply list_elem_of_filter.
    + by apply list_elem_of_filter.
Qed.

(** C9 (defect).  Stages are meant to be buckets (line 100: by stage,
    current bucket), but [fit] groups on the column as it comes, before
    any bucket lookup: with [buckets = [0, 15, 30]] the origins 17 and 20
    lie in the same bucket [15, 30), yet the two transitions are counted
    into different stage matrices, and two stage matrices are stored for
    the one observed origin bucket. *)
Lemma stages_by_bucket_index_counterexample :
  ∃ est p q,
    fit learner_default frame_same_bucket false = Ok est
    ∧ p ∈ frame_same_bucket ∧ q ∈ frame_same_bucket
    ∧ locate learner_default (bucket_t p)
      = locate learner_default (bucket_t q)
    ∧ ¬ same_stage_group frame_same_bucket p q
    ∧ size (_mat_by_stage est) = 2%nat
    ∧ length (remove_dups (locate learner_default
                             <$> (bucket_t <$> frame_same_bucket))) = 1%nat
    ∧ ¬ stages_by_bucket_index learner_default frame_same_bucket est.
Proof.
  eexists _, (mkTransition 17 17 "a"), (mkTransition 20 20 "a").
  split; [vm_compute; reflexivity|].
  assert (Hp : mkTransition 17 17 "a" ∈ frame_same_bucket)
    by apply list_elem_of_here.
  assert (Hq : mkTransition 20 20 "a" ∈ frame_same_bucket)
    by apply list_elem_of_further, list_elem_of_here.
  assert (Hno : ¬ same_stage_group frame_same_bucket
                    (mkTransition 17 17 "a") (mkTransition 20 20 "a")).
  { rewrite same_stage_group_iff by done. simpl. lia. }
  split; [done|]. split; [done|]. split; [reflexivity|].
  split; [done|]. split; [vm_compute; reflexivity|].
  split; [vm_compute; reflexivity|].
  intros [Hsame _]. apply Hno. by apply Hsame.
Qed.


(** *** The stored label list *)

(** C10.  [fit] leaves in [cleaned_buckets] the label list of the last
    cleaning pass it ran: the pass of the last stage group (the greatest
    raw origin value) when the frame has a row, the global pass when it
    has none.  The list is therefore not tied to the matrix a query
    returns: under dropping, fitting [frame_drop] stores the single label
    [30] next to a global matrix and a group matrix that are 2 by 2. *)
Theorem cleaned_buckets_last_pass :
  (∀ (self est : TransitionMatrixLearner) (merged : list transition)
     (group_col : bool),
     fit self merged group_col = Ok est →
     match last (groupby Z.le bucket_t merged) with
     | Some (k, grp) =>
         (∀ p, p ∈ merged → bucket_t p ≤ k)
         ∧ ∃ counts,
             _count_matrix self (pairs_of grp) = Ok counts
             ∧ _mat_by_stage est !! k = Some (_clean_matrix self counts).2
             ∧ cleaned_buckets est
               = cleaned_buckets (_clean_matrix self counts).1
     | None =>
         merged = []
         ∧ ∃ counts,
             _count_matrix self (pairs_of merged) = Ok counts
             ∧ _mat_global est = Some (_clean_matrix self counts).2
             ∧ cleaned_buckets est
               = cleaned_buckets (_clean_matrix self counts).1
     end)
  ∧ ∃ est mg ma,
      drop_empty learner_drop = true
      ∧ fit learner_drop frame_drop true = Ok est
      ∧ get_matrix est None None = Ok mg
      ∧ get_matrix est (Some "a") None = Ok ma
      ∧ cleaned_buckets est = [30]
      ∧ length mg = 2%nat ∧ Forall (λ r, length r = 2%nat) mg
      ∧ length ma = 2%nat ∧ Forall (λ r, length r = 2%nat) ma.
Proof.
  split.
  - intros self est merged group_col Hfit.
    destruct (fit_spec _ _ _ _ Hfit)
      as (cg & Hcg & _ & Hg & _ & Hin & Hlast & Hnil).
    destruct (last (groupby Z.le bucket_t merged)) as [[k grp]|] eqn:Hl.
    + destruct (groupby_stage_last _ _ _ Hl) as [Hkg Hmax].
      split; [done|].
      destruct (Hin k grp Hkg) as (c & Hc1 & Hc2).
      destruct (Hlast k grp eq_refl) as (c' & Hc1' & Hc2').
      rewrite Hc1 in Hc1'. injection Hc1' as <-.
      by exists c.
    + assert (Hm : merged = []).
      { apply (groupby_nil_inv Z.le bucket_t).
        destruct (groupby Z.le bucket_t merged) as [|x l]; [done|].
        rewrite last_cons in Hl. by destruct (last l). }
      split; [done|]. exists cg. by rewrite (Hnil Hm).
  - eexists _, _, _. split; [reflexivity|].
    split; [vm_compute; reflexivity|].
    split; [vm_compute; reflexivity|].
    split; [vm_compute; reflexivity|].
    split; [vm_compute; reflexivity|].
    split; [reflexivity|]. split; [by repeat constructor|].
    split; [reflexivity|]. by repeat constructor.
Qed.

Lemma cleaned_buckets_last_pass_witness :
  ∃ est counts,
    fit learner_drop frame_drop true = Ok est
    ∧ _count_matrix learner_drop [(30, 30); (30, 30)] = Ok counts
    ∧ cleaned_buckets est
      = cleaned_buckets (_clean_matrix learner_drop counts).1.
Proof.
  eexists.
  refine (let H := proj1 cleaned_buckets_last_pass learner_drop _
                     frame_drop true eq_refl in _).
  vm_compute in H. destruct H as (_ & c & Hc & _ & Hl).
  exists c. split; [vm_compute; reflexivity|]. split; [exact Hc|exact Hl].
Defined.

(** * Further properties *)

(** ** [_count_matrix] *)

Lemma cell_row_alter (mat : matrix) (i j a b : nat) (f : Z → Z) :
  cell (row (alter (alter f j) i mat) a) b
  = if decide (a = i ∧ b = j ∧ is_Some (mat !! i ≫= λ r, r !! j))
    then f (cell (row mat a) b) else cell (row mat a) b.
Proof.
  unfold cell, row. destruct (decide (a = i)) as [->|Hai].
  - rewrite list_lookup_alter_eq. destruct (mat !! i) as [r|]; simpl.
    + destruct (decide (b = j)) as [->|Hbj].
      * rewrite list_lookup_alter_eq. destruct (r !! j) as [c|]; simpl.
        -- rewrite decide_True; [done|]. repeat split. by eexists.
        -- rewrite decide_False; [done|]. intros (_ & _ & [? ?]). done.
      * rewrite list_lookup_alter_ne by done.
        rewrite decide_False; [done|]. intros (_ & ? & _). done.
    + rewrite decide_False; [done|]. intros (_ & _ & [? ?]). done.
  - rewrite list_lookup_alter_ne by done.
    rewrite decide_False; [done|]. intros (? & _). done.
Qed.

Lemma incr_cell_square (k i j : nat) (mat : matrix) :
  square k mat → square k (incr_cell i j mat).
Proof.
  intros [Hlen Hrows]. unfold incr_cell. split.
  - by rewrite length_alter.
  - apply Forall_alter; [done|]. intros r Hr Hlr. by rewrite length_alter.
Qed.

Lemma incr_cell_nonneg (i j : nat) (mat : matrix) :
  Forall (Forall (λ c, 0 ≤ c)) mat →
  Forall (Forall (λ c, 0 ≤ c)) (incr_cell i j mat).
Proof.
  intros Hpos. unfold incr_cell. apply Forall_alter; [done|].
  intros r Hr Hrp. apply Forall_alter; [done|]. intros c Hc Hcp. lia.
Qed.

Lemma incr_cell_cell (k i j a b : nat) (mat : matrix) :
  square k mat → (i < k)%nat → (j < k)%nat →
  cell (row (incr_cell i j mat) a) b
  = cell (row mat a) b + (if decide (a = i ∧ b = j) then 1 else 0).
Proof.
  intros Hsq Hi Hj. unfold incr_cell. rewrite cell_row_alter.
  destruct (square_lookup _ _ _ Hsq Hi) as (r & Hr & Hlr).
  destruct (lookup_lt_is_Some_2 r j ltac:(lia)) as [c Hc].
  destruct (decide (a = i ∧ b = j)) as [[-> ->]|Hne].
  - rewrite decide_True; [lia|]. repeat split. rewrite Hr. simpl. by eexists.
  - rewrite decide_False; [lia|]. intros (? & ? & _). by apply Hne.
Qed.

Lemma sum_alter_incr (r : list Z) (j : nat) :
  (j < length r)%nat → sum_ (alter (Z.add 1) j r) = sum_ r + 1.
Proof.
  revert j. induction r as [|x r IH]; intros j Hj; simpl in Hj; [lia|].
  destruct j as [|j].
  - change (1 + x + sum_ r = x + sum_ r + 1). lia.
  - change (x + sum_ (alter (Z.add 1) j r) = x + sum_ r + 1).
    rewrite IH by lia. lia.
Qed.

Lemma total_alter_incr (mat : matrix) (i j : nat) (r : list Z) :
  mat !! i = Some r → (j < length r)%nat →
  total_mass (alter (alter (Z.add 1) j) i mat) = total_mass mat + 1.
Proof.
  revert i. induction mat as [|r0 mat IH]; intros i Hi Hj; [done|].
  destruct i as [|i]; simpl in Hi.
  - injection Hi as ->.
    change (sum_ (alter (Z.add 1) j r) + total_mass mat
            = sum_ r + total_mass mat + 1).
    rewrite sum_alter_incr by done. lia.
  - change (sum_ r0 + total_mass (alter (alter (Z.add 1) j) i mat)
            = sum_ r0 + total_mass mat + 1).
    rewrite (IH i Hi Hj). lia.
Qed.

Lemma zeros_count_matrix (k : nat) : count_matrix k (zeros k).
Proof.
  unfold zeros. split; [split|].
  - apply length_replicate.
  - apply Forall_replicate, length_replicate.
  - apply Forall_replicate, Forall_replicate. lia.
Qed.

Lemma zeros_cell (k a b : nat) : cell (row (zeros k) a) b = 0.
Proof.
  unfold zeros, row. destruct (replicate k (replicate k 0) !! a) as [r|] eqn:Hr.
  - apply lookup_replicate in Hr as [-> _]. apply cell_replicate_zero.
  - done.
Qed.

Lemma zeros_total (k : nat) : total_mass (zeros k) = 0.
Proof.
  unfold zeros, total_mass, sum_axis1. rewrite fmap_replicate.
  rewrite sum_replicate_zero. generalize k at 1.
  intros k'. induction k' as [|k' IH]; [done|].
  change (0 + sum_ (replicate k' 0) = 0). by rewrite sum_replicate_zero.
Qed.

(** With at least one bucket every value is given an index in range:
    the lookup lies between [-1] and [n - 1], and [-1] wraps. *)
Lemma py_index_locate (self : TransitionMatrixLearner) (value : Z) :
  (0 < n self)%nat →
  ∃ i, py_index (n self) (locate self value) = Some i ∧ (i < n self)%nat.
Proof.
  intros Hn. unfold locate, n in *.
  pose proof (searchsorted_right_bounds (buckets self) value) as Hb.
  unfold py_index. case_bool_decide as H1.
  - eexists. split; [done|]. lia.
  - rewrite bool_decide_eq_true_2 by lia. eexists. split; [done|]. lia.
Qed.

Lemma target_in_range (self : TransitionMatrixLearner) (p : Z * Z) :
  (0 < n self)%nat →
  ∃ i j, target self p = Some (i, j) ∧ (i < n self)%nat ∧ (j < n self)%nat.
Proof.
  intros Hn. unfold target.
  destruct (py_index_locate self p.1 Hn) as (i & -> & Hi).
  destruct (py_index_locate self p.2 Hn) as (j & -> & Hj).
  by exists i, j.
Qed.

Lemma count_step_target (self : TransitionMatrixLearner) (mat : matrix)
    (p : Z * Z) :
  count_step self mat p
  = match target self p with
    | Some (i, j) => Ok (incr_cell i j mat)
    | None => Raise IndexError
    end.
Proof.
  unfold count_step, target.
  destruct (py_index _ (locate self p.1)); [|done].
  by destruct (py_index _ (locate self p.2)).
Qed.

Lemma hits_cons (self : TransitionMatrixLearner) (i j : nat) (p : Z * Z)
    (pairs : list (Z * Z)) :
  hits self i j (p :: pairs)
  = ((if decide (target self p = Some (i, j)) then 1 else 0)
     + hits self i j pairs)%nat.
Proof.
  unfold hits. rewrite filter_cons.
  by destruct (decide (target self p = Some (i, j))).
Qed.

Lemma count_loop_spec (self : TransitionMatrixLearner)
    (pairs : list (Z * Z)) (mat : matrix) :
  (0 < n self)%nat → count_matrix (n self) mat →
  ∃ m, count_loop self mat pairs = Ok m
       ∧ count_matrix (n self) m
       ∧ total_mass m = total_mass mat + Z.of_nat (length pairs)
       ∧ ∀ a b, cell (row m a) b
                = cell (row mat a) b + Z.of_nat (hits self a b pairs).
Proof.
  intros Hn. revert mat. induction pairs as [|p ps IH]; intros mat Hcm.
  - exists mat. split; [done|]. split; [done|]. split.
    + simpl. lia.
    + intros a b. unfold hits. simpl. lia.
  - simpl. rewrite count_step_target.
    destruct (target_in_range self p Hn) as (i & j & Ht & Hi & Hj).
    rewrite Ht. cbn [rbind].
    destruct Hcm as [Hsq Hpos].
    destruct (IH (incr_cell i j mat)) as (m & Hm & Hcm' & Htot & Hcell).
    { split; [by apply incr_cell_square|by apply incr_cell_nonneg]. }
    exists m. split; [done|]. split; [done|]. split.
    + rewrite Htot. unfold incr_cell.
      destruct (square_lookup _ _ _ Hsq Hi) as (r & Hr & Hlr).
      rewrite (total_alter_incr _ _ _ _ Hr) by lia.
      simpl length. lia.
    + intros a b. rewrite Hcell, (incr_cell_cell (n self)) by done.
      rewrite hits_cons, Ht.
      destruct (decide (a = i ∧ b = j)) as [[-> ->]|Hne].
      * rewrite decide_True by done. lia.
      * rewrite decide_False; [lia|]. intros [= -> ->]. by apply Hne.
Qed.

Lemma row_ext (k : nat) (r1 r2 : list Z) :
  length r1 = k → length r2 = k →
  (∀ b, (b < k)%nat → cell r1 b = cell r2 b) → r1 = r2.
Proof.
  intros H1 H2 Hc. apply list_eq. intros b.
  destruct (decide (b < k)%nat) as [Hb|Hb].
  - destruct (lookup_lt_is_Some_2 r1 b ltac:(lia)) as [x Hx].
    destruct (lookup_lt_is_Some_2 r2 b ltac:(lia)) as [y Hy].
    specialize (Hc b Hb).
    rewrite (cell_lookup _ _ _ Hx), (cell_lookup _ _ _ Hy) in Hc.
    by rewrite Hx, Hy, Hc.
  - by rewrite !lookup_ge_None_2 by lia.
Qed.

Lemma matrix_ext (k : nat) (m1 m2 : matrix) :
  square k m1 → square k m2 →
  (∀ a b, (a < k)%nat → (b < k)%nat →
          cell (row m1 a) b = cell (row m2 a) b) →
  m1 = m2.
Proof.
  intros Hs1 Hs2 Hc. apply list_eq. intros a.
  destruct (decide (a < k)%nat) as [Ha|Ha].
  - destruct (square_lookup _ _ _ Hs1 Ha) as (r1 & Hr1 & Hl1).
    destruct (square_lookup _ _ _ Hs2 Ha) as (r2 & Hr2 & Hl2).
    rewrite Hr1, Hr2. f_equal. apply (row_ext k); [done|done|].
    intros b Hb. specialize (Hc a b Ha Hb).
    by rewrite (row_lookup _ _ _ Hr1), (row_lookup _ _ _ Hr2) in Hc.
  - destruct Hs1 as [Hl1 _], Hs2 as [Hl2 _].
    by rewrite !lookup_ge_None_2 by lia.
Qed.

Lemma count_matrix_spec (self : TransitionMatrixLearner)
    (pairs : list (Z * Z)) :
  (0 < n self)%nat →
  ∃ m, _count_matrix self pairs = Ok m
       ∧ count_matrix (n self) m
       ∧ total_mass m = Z.of_nat (length pairs)
       ∧ ∀ a b, cell (row m a) b = Z.of_nat (hits self a b pairs).
Proof.
  intros Hn. unfold _count_matrix.
  destruct (count_loop_spec self pairs (zeros (n self)) Hn
              (zeros_count_matrix _)) as (m & Hm & Hcm & Htot & Hcell).
  exists m. split; [done|]. split; [done|]. split.
  - by rewrite Htot, zeros_total.
  - intros a b. by rewrite Hcell, zeros_cell.
Qed.

Lemma count_matrix_empty_buckets (self : TransitionMatrixLearner)
    (pairs : list (Z * Z)) :
  buckets self = [] →
  _count_matrix self pairs
  = match pairs with [] => Ok [] | _ :: _ => Raise IndexError end.
Proof.
  intros Hb. assert (Hn : n self = 0%nat) by (unfold n; by rewrite Hb).
  unfold _count_matrix. rewrite Hn.
  destruct pairs as [|p ps]; [done|].
  simpl. rewrite count_step_target. unfold target, py_index. rewrite Hn.
  by rewrite !bool_decide_eq_false_2 by (simpl; lia).
Qed.

(** X1.  With at least one bucket [_count_matrix] never raises: it
    returns an [n] by [n] matrix without negative cell whose total mass
    is the number of transitions. *)
Theorem count_matrix_total (self : TransitionMatrixLearner)
    (pairs : list (Z * Z)) :
  (0 < n self)%nat →
  ∃ m, _count_matrix self pairs = Ok m
       ∧ count_matrix (n self) m
       ∧ total_mass m = Z.of_nat (length pairs).
Proof.
  intros Hn.
  destruct (count_matrix_spec self pairs Hn) as (m & Hm & Hcm & Htot & _).
  by exists m.
Qed.

Lemma count_matrix_total_witness :
  ∃ m, _count_matrix learner_default [(0, 15); (15, 15); (40, 0)] = Ok m
       ∧ count_matrix 3 m
       ∧ total_mass m = 3.
Proof.
  apply (count_matrix_total learner_default [(0, 15); (15, 15); (40, 0)]).
  unfold n. simpl. lia.
Defined.

Lemma count_cells (self : TransitionMatrixLearner)
    (pairs : list (Z * Z)) (m : matrix) (a b : nat) :
  _count_matrix self pairs = Ok m →
  cell (row m a) b = Z.of_nat (hits self a b pairs).
Proof.
  intros Hm. destruct (decide (0 < n self)%nat) as [Hn|Hn].
  - destruct (count_matrix_spec self pairs Hn) as (m' & Hm' & _ & _ & Hc).
    rewrite Hm in Hm'. injection Hm' as <-. apply Hc.
  - assert (Hb : buckets self = []).
    { unfold n in Hn. destruct (buckets self); [done|simpl in Hn; lia]. }
    rewrite (count_matrix_empty_buckets self pairs Hb) in Hm.
    destruct pairs as [|p ps]; [|done]. injection Hm as <-.
    by destruct a.
Qed.

(** X2.  Each cell of the matrix [_count_matrix] returns holds the number
    of transitions whose origin and destination are looked up to that
    row and column. *)
Theorem count_matrix_cells (self : TransitionMatrixLearner)
    (pairs : list (Z * Z)) (m : matrix) (a b : nat) :
  _count_matrix self pairs = Ok m →
  cell (row m a) b = Z.of_nat (hits self a b pairs).
Proof. apply count_cells. Qed.

Lemma count_matrix_cells_witness :
  ∃ m, _count_matrix learner_default [(0, 15); (15, 15); (40, 0)] = Ok m
       ∧ cell (row m 0) 1 = 1.
Proof.
  eexists. split; [reflexivity|].
  apply (count_matrix_cells learner_default [(0, 15); (15, 15); (40, 0)]).
  reflexivity.
Defined.

(** X3.  Without any bucket the first transition raises [IndexError]. *)
Theorem count_matrix_no_buckets (self : TransitionMatrixLearner)
    (pairs : list (Z * Z)) :
  buckets self = [] → pairs ≠ [] →
  _count_matrix self pairs = Raise IndexError.
Proof.
  intros Hb Hp. rewrite (count_matrix_empty_buckets self pairs Hb).
  by destruct pairs.
Qed.

Lemma count_matrix_no_buckets_witness :
  _count_matrix (mkLearner [] 1 false false 10 7 [] None ∅ ∅) [(3, 4)]
  = Raise IndexError.
Proof. apply count_matrix_no_buckets; [reflexivity|discriminate]. Defined.

(** X4.  The order of the transitions does not matter to
    [_count_matrix]. *)
Theorem count_matrix_permutation (self : TransitionMatrixLearner)
    (pairs pairs' : list (Z * Z)) :
  pairs ≡ₚ pairs' → _count_matrix self pairs = _count_matrix self pairs'.
Proof.
  intros Hperm. destruct (decide (0 < n self)%nat) as [Hn|Hn].
  - destruct (count_matrix_spec self pairs Hn) as (m & Hm & Hcm & _ & Hc).
    destruct (count_matrix_spec self pairs' Hn)
      as (m' & Hm' & Hcm' & _ & Hc').
    rewrite Hm, Hm'. f_equal.
    apply (matrix_ext (n self)); [by destruct Hcm|by destruct Hcm'|].
    intros a b _ _. rewrite Hc, Hc'. unfold hits. by rewrite Hperm.
  - assert (Hb : buckets self = []).
    { unfold n in Hn. destruct (buckets self); [done|simpl in Hn; lia]. }
    rewrite !count_matrix_empty_buckets by done.
    destruct pairs as [|p ps].
    + apply Permutation_nil_l in Hperm. by subst.
    + destruct pairs' as [|p' ps']; [|done].
      by apply Permutation_nil_r in Hperm.
Qed.

Lemma count_matrix_permutation_witness :
  _count_matrix learner_default [(0, 15); (15, 15)]
  = _count_matrix learner_default [(15, 15); (0, 15)].
Proof. apply count_matrix_permutation. apply Permutation_swap. Defined.

(** X5.  Counting a concatenation adds the counts cell by cell. *)
Theorem count_matrix_app (self : TransitionMatrixLearner)
    (ps qs : list (Z * Z)) (mp mq m : matrix) (a b : nat) :
  _count_matrix self ps = Ok mp →
  _count_matrix self qs = Ok mq →
  _count_matrix self (ps ++ qs) = Ok m →
  cell (row m a) b = cell (row mp a) b + cell (row mq a) b.
Proof.
  intros Hp Hq Hpq. destruct (decide (0 < n self)%nat) as [Hn|Hn].
  - destruct (count_matrix_spec self ps Hn) as (? & H1 & _ & _ & Hc1).
    destruct (count_matrix_spec self qs Hn) as (? & H2 & _ & _ & Hc2).
    destruct (count_matrix_spec self (ps ++ qs) Hn)
      as (? & H3 & _ & _ & Hc3).
    rewrite Hp in H1. rewrite Hq in H2. rewrite Hpq in H3.
    injection H1 as <-. injection H2 as <-. injection H3 as <-.
    rewrite Hc1, Hc2, Hc3. unfold hits.
    rewrite filter_app, length_app. lia.
  - assert (Hb : buckets self = []).
    { unfold n in Hn. destruct (buckets self); [done|simpl in Hn; lia]. }
    rewrite count_matrix_empty_buckets in Hp, Hq, Hpq by done.
    destruct ps; [|done]. destruct qs; [|done].
    injection Hp as <-. injection Hq as <-. injection Hpq as <-.
    by destruct a.
Qed.

Lemma count_matrix_app_witness :
  ∃ m mp mq,
    _count_matrix learner_default ([(0, 15)] ++ [(0, 15); (15, 0)]) = Ok m
    ∧ _count_matrix learner_default [(0, 15)] = Ok mp
    ∧ _count_matrix learner_default [(0, 15); (15, 0)] = Ok mq
    ∧ cell (row m 0) 1 = cell (row mp 0) 1 + cell (row mq 0) 1.
Proof.
  eexists _, _, _. split; [reflexivity|]. split; [reflexivity|].
  split; [reflexivity|].
  apply (count_matrix_app learner_default [(0, 15)] [(0, 15); (15, 0)]);
    reflexivity.
Defined.

(** *** The bucket lookup *)

Lemma searchsorted_right_unique (a : list Z) (v : Z) (p : nat) :
  (∀ k x, a !! k = Some x → (k < p)%nat → x ≤ v) →
  (∀ x, a !! p = Some x → v < x) →
  (p ≤ length a)%nat →
  searchsorted_right a v = Z.of_nat p.
Proof.
  revert p. induction a as [|b a IH]; intros p Hle Hgt Hp.
  - simpl in Hp. by replace p with 0%nat by lia.
  - simpl. destruct p as [|p].
    + specialize (Hgt b eq_refl). by rewrite bool_decide_eq_false_2 by lia.
    + pose proof (Hle 0%nat b eq_refl ltac:(lia)).
      rewrite bool_decide_eq_true_2 by done.
      rewrite (IH p); [lia| | |simpl in Hp; lia].
      * intros k x Hk Hkp. apply (Hle (S k) x Hk). lia.
      * intros x Hx. by apply Hgt.
Qed.

Lemma StronglySorted_lookup_le (a : list Z) (k i : nat) (x y : Z) :
  StronglySorted Z.le a → (k ≤ i)%nat →
  a !! k = Some x → a !! i = Some y → x ≤ y.
Proof.
  intros Hs. revert k i. induction Hs as [|b a Hs IH Hb]; intros k i Hki Hk Hi;
    [done|].
  destruct k as [|k], i as [|i]; simpl in *; try lia.
  - injection Hk as <-. injection Hi as <-. lia.
  - injection Hk as <-.
    apply (proj1 (Forall_forall _ _) Hb), list_elem_of_lookup. by exists i.
  - apply (IH k i); [lia|done|done].
Qed.

(** X6.  On sorted thresholds the lookup returns [i] exactly for the
    values of the interval of bucket [i]: from threshold [i] up to, and
    not including, threshold [i + 1] (without upper end for the last
    bucket). *)
Theorem locate_interval (self : TransitionMatrixLearner) (value : Z)
    (i : nat) :
  Sorted Z.le (buckets self) →
  (i < n self)%nat →
  locate self value = Z.of_nat i
  ↔ cell (buckets self) i ≤ value
    ∧ (S i = n self ∨ value < cell (buckets self) (S i)).
Proof.
  intros Hsorted Hi. unfold locate, n in *.
  apply Sorted_StronglySorted in Hsorted; [|apply _].
  pose proof (searchsorted_right_bounds (buckets self) value) as Hbd.
  destruct (lookup_lt_is_Some_2 (buckets self) i Hi) as [bi Hbi].
  rewrite (cell_lookup _ _ _ Hbi). split.
  - intros Hloc. split.
    + apply (searchsorted_right_le _ _ _ _ Hbi). lia.
    + destruct (decide (S i = length (buckets self))) as [?|Hne];
        [by left|right].
      destruct (lookup_lt_is_Some_2 (buckets self) (S i) ltac:(lia))
        as [x Hx].
      rewrite (cell_lookup _ _ _ Hx).
      apply (searchsorted_right_gt (buckets self)).
      by replace (Z.to_nat (searchsorted_right (buckets self) value))
        with (S i) by lia.
  - intros [Hle Hnext].
    rewrite (searchsorted_right_unique _ _ (S i)); [lia| | |lia].
    + intros k x Hk Hki.
      pose proof (StronglySorted_lookup_le _ k i x bi Hsorted
                    ltac:(lia) Hk Hbi). lia.
    + intros x Hx. destruct Hnext as [Hlast|Hlt].
      * apply lookup_lt_Some in Hx. lia.
      * by rewrite (cell_lookup _ _ _ Hx) in Hlt.
Qed.

Lemma locate_interval_witness :
  locate learner_default 20 = 1
  ↔ cell (buckets learner_default) 1 ≤ 20
    ∧ (2%nat = n learner_default
       ∨ 20 < cell (buckets learner_default) 2).
Proof.
  apply (locate_interval learner_default 20 1).
  - repeat constructor; lia.
  - unfold n. simpl. lia.
Defined.

(** X7.  When all the transitions counted share one raw origin, as in a
    stage group, only the row of that origin's bucket can hold mass. *)
Theorem count_matrix_single_origin (self : TransitionMatrixLearner)
    (pairs : list (Z * Z)) (k : Z) (m : matrix) (i a b : nat) :
  Forall (λ p, p.1 = k) pairs →
  _count_matrix self pairs = Ok m →
  py_index (n self) (locate self k) = Some i →
  a ≠ i →
  cell (row m a) b = 0.
Proof.
  intros Hk Hm Hi Ha. rewrite (count_cells self pairs m a b Hm).
  unfold hits. clear Hm.
  assert (Hnil : filter (λ p, target self p = Some (a, b)) pairs = []).
  { induction Hk as [|p ps Hp _ IH]; [done|].
    rewrite filter_cons_False; [done|].
    unfold target. rewrite Hp, Hi.
    destruct (py_index (n self) (locate self p.2)); [|done].
    intros [= -> _]. done. }
  by rewrite Hnil.
Qed.

Lemma count_matrix_single_origin_witness :
  ∃ m, _count_matrix learner_default [(17, 0); (17, 40)] = Ok m
       ∧ cell (row m 0) 0 = 0.
Proof.
  eexists. split; [reflexivity|].
  apply (count_matrix_single_origin learner_default [(17, 0); (17, 40)]
           17 _ 1 0 0).
  - repeat constructor.
  - reflexivity.
  - reflexivity.
  - lia.
Defined.

(** ** [__init__] *)



(** ** [_clean_matrix]: shape and range of the result *)

Lemma cell_nonneg (r : list Z) (b : nat) :
  Forall (λ c, 0 ≤ c) r → 0 ≤ cell r b.
Proof.
  intros Hr. unfold cell. destruct (r !! b) as [c|] eqn:Hc; [|done].
  simpl. by apply (Forall_lookup_1 _ _ _ _ Hr Hc).
Qed.

Lemma row_nonneg (mat : matrix) (a : nat) :
  Forall (Forall (λ c, 0 ≤ c)) mat → Forall (λ c, 0 ≤ c) (row mat a).
Proof.
  intros Hm. unfold row. destruct (mat !! a) as [r|] eqn:Hr; simpl.
  - by apply (Forall_lookup_1 _ _ _ _ Hm Hr).
  - constructor.
Qed.

Lemma merge_into_nonneg (i j : nat) (mat : matrix) :
  Forall (Forall (λ c, 0 ≤ c)) mat →
  Forall (Forall (λ c, 0 ≤ c)) (merge_into i j mat).
Proof.
  intros Hm. unfold merge_into, zero_col, zero_row, add_col, add_row.
  apply Forall_fmap, Forall_insert.
  - apply Forall_fmap, Forall_insert.
    + eapply Forall_impl; [exact Hm|]. intros r Hr. simpl.
      apply Forall_insert; [|done].
      apply Forall_insert; [done|].
      pose proof (cell_nonneg r j Hr). pose proof (cell_nonneg r i Hr). lia.
    + simpl.
      assert (Hz : Forall (λ c, 0 ≤ c)
                     (zip_with Z.add (row mat j) (row mat i))).
      { apply (Forall_zip_with_fst _ (λ c, 0 ≤ c)).
        - by apply row_nonneg.
        - eapply Forall_impl; [by apply (row_nonneg mat i)|].
          intros y Hy x Hx. simpl in *. lia. }
      apply Forall_insert; [|done].
      apply Forall_insert; [done|].
      pose proof (cell_nonneg _ j Hz). pose proof (cell_nonneg _ i Hz). lia.
  - simpl. apply Forall_insert; [|done]. apply Forall_replicate. lia.
Qed.

Lemma rebin_state_nonneg (self : TransitionMatrixLearner) (mat : matrix)
    (k : nat) :
  Forall (Forall (λ c, 0 ≤ c)) mat →
  Forall (Forall (λ c, 0 ≤ c)) (rebin_state self mat k).1.
Proof.
  intros Hm. induction k as [|k IH]; [done|].
  rewrite rebin_state_S. unfold rebin_step.
  case_bool_decide; [|done].
  destruct (rebin_donor self _ k); [|done].
  by apply merge_into_nonneg.
Qed.

(** The strategy pass keeps cells non-negative. *)
Lemma strategy_pass_nonneg (self : TransitionMatrixLearner) (mat : matrix) :
  Forall (Forall (λ c, 0 ≤ c)) mat →
  Forall (Forall (λ c, 0 ≤ c)) (strategy_pass self mat).1.
Proof.
  intros Hm. unfold strategy_pass. destruct (auto_rebin self).
  - by apply rebin_state_nonneg.
  - destruct (drop_empty self); [|done]. cbn [fst]. unfold ix_select.
    apply Forall_fmap, Forall_forall. intros a _. simpl.
    apply Forall_fmap, Forall_forall. intros b _. simpl.
    by apply cell_nonneg, row_nonneg.
Qed.

Section laplace_range.
Local Open Scope Q_scope.

Lemma Qsum_nonneg (l : list Q) : Forall (λ y, 0 <= y) l → 0 <= Qsum l.
Proof.
  induction 1 as [|y l Hy _ IH]; simpl; [apply Qle_refl|]. lra.
Qed.

Lemma Qsum_ge_elem (l : list Q) (y : Q) :
  Forall (λ y, 0 <= y) l → y ∈ l → y <= Qsum l.
Proof.
  intros Hl. induction Hl as [|x l Hx Hl IH]; intros Hy.
  - by apply elem_of_nil in Hy.
  - simpl. pose proof (Qsum_nonneg l Hl).
    apply elem_of_cons in Hy as [->|Hy]; [lra|].
    specialize (IH Hy). lra.
Qed.

Lemma shifted_nonneg (a : Q) (r : list Z) :
  0 <= a → Forall (λ c, (0 ≤ c)%Z) r →
  Forall (λ y, 0 <= y) ((λ x, inject_Z x + a) <$> r).
Proof.
  intros Ha Hr. apply Forall_fmap. eapply Forall_impl; [exact Hr|].
  intros c Hc. simpl.
  assert (0 <= inject_Z c)
    by (change 0 with (inject_Z 0); by rewrite <- Zle_Qle).
  lra.
Qed.

Lemma laplace_row_unit (a : Q) (r : list Z) :
  0 <= a → Forall (λ c, (0 ≤ c)%Z) r → (0 < sum_ r)%Z →
  Forall (λ y, 0 <= y ∧ y <= 1) (laplace_row a r).
Proof.
  intros Ha Hr Hs. unfold laplace_row.
  pose proof (Qsum_shift_pos a r Ha Hs) as Hpos.
  pose proof (shifted_nonneg a r Ha Hr) as Hnn.
  apply Forall_fmap, Forall_forall. intros y Hy. simpl.
  pose proof (proj1 (Forall_forall _ _) Hnn y Hy) as Hy0.
  pose proof (Qsum_ge_elem _ y Hnn Hy) as Hy1.
  cbv beta in Hy0.
  set (total := Qsum ((λ x, inject_Z x + a) <$> r)) in *.
  split.
  - apply Qle_shift_div_l; [done|]. lra.
  - apply Qle_shift_div_r; [done|]. lra.
Qed.

Lemma laplace_row_positive (a : Q) (r : list Z) :
  0 < a → Forall (λ c, (0 ≤ c)%Z) r → (0 < sum_ r)%Z →
  Forall (λ y, 0 < y) (laplace_row a r).
Proof.
  intros Ha Hr Hs. unfold laplace_row.
  pose proof (Qsum_shift_pos a r ltac:(lra) Hs) as Hpos.
  rewrite <- list_fmap_compose.
  apply Forall_fmap. eapply Forall_impl; [exact Hr|].
  intros c Hc. simpl.
  assert (0 <= inject_Z c)
    by (change 0 with (inject_Z 0); by rewrite <- Zle_Qle).
  set (total := Qsum ((λ x, inject_Z x + a) <$> r)) in *.
  apply Qlt_shift_div_l; [done|]. lra.
Qed.
End laplace_range.

(** X9.  For a count matrix and [alpha >= 0], whatever the strategy,
    every cell of the cleaned matrix lies between 0 and 1. *)
Theorem clean_matrix_within_unit (self : TransitionMatrixLearner)
    (mat : matrix) :
  (0 <= alpha self)%Q →
  Forall (Forall (λ c, 0 ≤ c)) mat →
  within_unit (_clean_matrix self mat).2.
Proof.
  intros Ha Hm. unfold within_unit, _clean_matrix, laplace. cbn [snd].
  pose proof (strategy_pass_nonneg self mat Hm) as Hpost.
  apply Forall_fmap. eapply Forall_impl; [exact Hpost|].
  intros r Hr. simpl. case_bool_decide as Hs.
  - by apply laplace_row_unit.
  - apply Forall_replicate. split; [apply Qle_refl|]. by vm_compute.
Qed.

Lemma clean_matrix_within_unit_witness :
  within_unit (_clean_matrix learner_rebin counts_sparse_middle).2.
Proof.
  apply clean_matrix_within_unit.
  - unfold Qle. simpl. lia.
  - repeat first [apply Forall_cons; split | apply Forall_nil]; lia.
Defined.

(** X10.  With [alpha > 0] a row that has mass after the strategy pass is
    cleaned to strictly positive cells: smoothing leaves no zero
    probability in an observed row of a count matrix. *)
Theorem clean_matrix_positive_row (self : TransitionMatrixLearner)
    (mat : matrix) (i : nat) (r : list Z) (q : list Q) :
  (0 < alpha self)%Q →
  Forall (Forall (λ c, 0 ≤ c)) mat →
  (strategy_pass self mat).1 !! i = Some r →
  0 < sum_ r →
  (_clean_matrix self mat).2 !! i = Some q →
  Forall (λ y, 0 < y)%Q q.
Proof.
  intros Ha Hm Hr Hs Hq. unfold _clean_matrix in Hq. cbn [snd] in Hq.
  rewrite (laplace_lookup _ _ _ _ Hr), bool_decide_eq_true_2 in Hq by done.
  injection Hq as <-. apply laplace_row_positive; [done| |done].
  apply (Forall_lookup_1 _ _ _ _ (strategy_pass_nonneg self mat Hm) Hr).
Qed.

Lemma clean_matrix_positive_row_witness :
  ∃ q, (_clean_matrix learner_default counts_sparse_middle).2 !! 1%nat
       = Some q
       ∧ Forall (λ y, 0 < y)%Q q.
Proof.
  eexists. split; [reflexivity|].
  apply (clean_matrix_positive_row learner_default counts_sparse_middle 1
           [0; 1; 0]).
  - reflexivity.
  - repeat first [apply Forall_cons; split | apply Forall_nil]; lia.
  - reflexivity.
  - reflexivity.
  - reflexivity.
Defined.

(** ** [_clean_matrix]: more on re-binning *)

Lemma cell_insert (r : list Z) (i b : nat) (v : Z) :
  cell (<[i := v]> r) b
  = if decide (i = b ∧ (i < length r)%nat) then v else cell r b.
Proof. unfold cell. rewrite list_lookup_insert. by case_decide. Qed.

Lemma row_insert (mat : matrix) (i a : nat) (r : list Z) :
  row (<[i := r]> mat) a
  = if decide (i = a ∧ (i < length mat)%nat) then r else row mat a.
Proof. unfold row. rewrite list_lookup_insert. by case_decide. Qed.

Lemma row_fmap (f : list Z → list Z) (mat : matrix) (a : nat) :
  f [] = [] → row (f <$> mat) a = f (row mat a).
Proof.
  intros Hf. unfold row. rewrite list_lookup_fmap.
  by destruct (mat !! a).
Qed.

Lemma cell_ge (r : list Z) (b : nat) : (length r ≤ b)%nat → cell r b = 0.
Proof. intros Hb. unfold cell. by rewrite lookup_ge_None_2. Qed.

Lemma row_ge (mat : matrix) (a : nat) : (length mat ≤ a)%nat → row mat a = [].
Proof. intros Ha. unfold row. by rewrite lookup_ge_None_2. Qed.

Lemma row_length (k : nat) (mat : matrix) (a : nat) :
  square k mat → (a < k)%nat → length (row mat a) = k.
Proof.
  intros Hsq Ha. destruct (square_lookup _ _ _ Hsq Ha) as (r & Hr & Hl).
  by rewrite (row_lookup _ _ _ Hr).
Qed.

Lemma cell_zip_add (r1 r2 : list Z) (b : nat) :
  length r1 = length r2 →
  cell (zip_with Z.add r1 r2) b = cell r1 b + cell r2 b.
Proof.
  intros Hlen. unfold cell. rewrite lookup_zip_with.
  destruct (r1 !! b) as [x|] eqn:H1; simpl.
  - destruct (lookup_lt_is_Some_2 r2 b) as [y Hy].
    { apply lookup_lt_Some in H1. lia. }
    by rewrite Hy.
  - apply lookup_ge_None_1 in H1.
    rewrite (lookup_ge_None_2 r2) by lia. done.
Qed.

Lemma add_row_square (k i j : nat) (mat : matrix) :
  square k mat → (i < k)%nat → (j < k)%nat → square k (add_row j i mat).
Proof.
  intros Hsq Hi Hj. pose proof Hsq as [Hlen Hrows]. unfold add_row. split.
  - by rewrite length_insert.
  - apply Forall_insert; [done|]. rewrite length_zip_with.
    rewrite (row_length k _ _ Hsq Hi), (row_length k _ _ Hsq Hj). lia.
Qed.

Lemma cell_add_row (k i j a b : nat) (mat : matrix) :
  square k mat → (i < k)%nat → (j < k)%nat →
  cell (row (add_row j i mat) a) b
  = cell (row mat a) b + (if decide (a = j) then cell (row mat i) b else 0).
Proof.
  intros Hsq Hi Hj. pose proof Hsq as [Hlen _].
  unfold add_row. rewrite row_insert.
  destruct (decide (a = j)) as [->|Haj].
  - rewrite decide_True by (split; [done|lia]).
    apply cell_zip_add.
    by rewrite (row_length k _ _ Hsq Hi), (row_length k _ _ Hsq Hj).
  - rewrite decide_False by (intros [? _]; done). lia.
Qed.

Lemma cell_add_col (k i j a b : nat) (mat : matrix) :
  square k mat → (j < k)%nat →
  cell (row (add_col j i mat) a) b
  = cell (row mat a) b + (if decide (b = j) then cell (row mat a) i else 0).
Proof.
  intros Hsq Hj. unfold add_col. rewrite row_fmap by done.
  rewrite cell_insert.
  destruct (decide (a < k)%nat) as [Ha|Ha].
  - rewrite (row_length k _ _ Hsq Ha).
    destruct (decide (b = j)) as [->|Hbj].
    + rewrite decide_True by done. lia.
    + rewrite decide_False by (intros [? _]; done). lia.
  - destruct Hsq as [Hlen _]. rewrite (row_ge mat a) by lia.
    rewrite decide_False by (simpl; lia).
    change (cell [] b) with 0. change (cell [] i) with 0.
    case_decide; lia.
Qed.

Lemma cell_zero_row (i a b : nat) (mat : matrix) :
  cell (row (zero_row i mat) a) b
  = if decide (a = i) then 0 else cell (row mat a) b.
Proof.
  unfold zero_row. rewrite row_insert.
  destruct (decide (a = i)) as [->|Hai].
  - case_decide as Hin.
    + apply cell_replicate_zero.
    + rewrite (row_ge mat i); [done|]. lia.
  - by rewrite decide_False by (intros [? _]; done).
Qed.

Lemma cell_zero_col (i a b : nat) (mat : matrix) :
  cell (row (zero_col i mat) a) b
  = if decide (b = i) then 0 else cell (row mat a) b.
Proof.
  unfold zero_col. rewrite row_fmap by done. rewrite cell_insert.
  destruct (decide (b = i)) as [->|Hbi].
  - case_decide as Hin; [done|]. apply cell_ge. lia.
  - by rewrite decide_False by (intros [? _]; done).
Qed.

(** Cell by cell, what lines 131-134 leave of a merge of row [i] into
    another row [j]: row and column [i] are cleared, row [j] has gained
    row [i], column [j] has gained column [i]. *)
Lemma merge_into_cell (k i j a b : nat) (mat : matrix) :
  square k mat → (i < k)%nat → (j < k)%nat → i ≠ j →
  cell (row (merge_into i j mat) a) b
  = if decide (a = i ∨ b = i) then 0
    else cell (row mat a) b
         + (if decide (a = j) then cell (row mat i) b else 0)
         + (if decide (b = j)
            then cell (row mat a) i
                 + (if decide (a = j) then cell (row mat i) i else 0)
            else 0).
Proof.
  intros Hsq Hi Hj Hij. unfold merge_into.
  rewrite cell_zero_col, cell_zero_row.
  rewrite (cell_add_col k _ _ _ _ _ (add_row_square k i j mat Hsq Hi Hj) Hj).
  rewrite !(cell_add_row k) by done.
  repeat case_decide; try lia; intuition lia.
Qed.

Lemma populated_rows_initial (self : TransitionMatrixLearner) (mat : matrix) :
  populated_rows self mat = non_empty_rows self (sum_axis1 mat).
Proof.
  unfold populated_rows, non_empty_rows.
  assert (Hlen : length (sum_axis1 mat) = length mat)
    by (unfold sum_axis1; apply length_fmap).
  rewrite Hlen. apply list_filter_iff. intros x.
  by rewrite cell_sum_axis1.
Qed.

Lemma non_empty_rows_range (self : TransitionMatrixLearner) (mat : matrix)
    (x : nat) :
  x ∈ non_empty_rows self (sum_axis1 mat) → (x < length mat)%nat.
Proof.
  intros Hx. apply non_empty_rows_elem in Hx as [Hx _].
  unfold sum_axis1 in Hx. by rewrite length_fmap in Hx.
Qed.

(** What a pass has done to the row totals when it reaches row [k]:
    populated rows have not lost mass, sparse rows already visited are
    empty, sparse rows still to come are untouched. *)
Lemma rebin_state_totals (self : TransitionMatrixLearner) (mat : matrix)
    (k x : nat) :
  count_matrix (n self) mat →
  non_empty_rows self (sum_axis1 mat) ≠ [] →
  (k ≤ n self)%nat → (x < n self)%nat →
  let ne := non_empty_rows self (sum_axis1 mat) in
  let rs := (rebin_state self mat k).2 in
  (x ∈ ne → cell (sum_axis1 mat) x ≤ cell rs x)
  ∧ (x ∉ ne → (x < k)%nat → cell rs x = 0)
  ∧ (x ∉ ne → (k ≤ x)%nat → cell rs x = cell (sum_axis1 mat) x).
Proof.
  intros Hcm Hne Hk Hx ne rs. subst rs.
  induction k as [|k IH].
  - cbn. split; [lia|]. split; [lia|done].
  - specialize (IH ltac:(lia)). destruct IH as (IH1 & IH2 & IH3).
    destruct (rebin_state_inv self mat k Hcm) as [Hinv _]; [lia|].
    destruct Hinv as (Hsq & Hrs & Hpos & Hmem).
    assert (Hlen : length (rebin_state self mat k).2 = n self).
    { rewrite Hrs. unfold sum_axis1. rewrite length_fmap. by destruct Hsq. }
    rewrite rebin_state_S. fold ne. unfold rebin_step.
    case_bool_decide as Hs.
    + destruct (rebin_donor self ne k) as [j|] eqn:Hd.
      2:{ by apply rebin_donor_None in Hd. }
      apply rebin_donor_Some in Hd as (Hj & _).
      assert (Hjn : (j < n self)%nat).
      { apply non_empty_rows_range in Hj. destruct Hcm as [[Hl _] _]. lia. }
      assert (Hkne : k ∉ ne).
      { intros Hin. apply (Hmem k) in Hin; [lia|lia]. }
      assert (Hsk : 0 ≤ cell (rebin_state self mat k).2 k)
        by (apply cell_nonneg, Hpos).
      cbn [snd]. unfold merge_sums. rewrite !cell_insert, !length_insert.
      rewrite Hlen. split; [|split].
      * intros Hin. specialize (IH1 Hin).
        rewrite decide_False by (intros [<- _]; done).
        case_decide as Hc; [destruct Hc as [<- _]|]; lia.
      * intros Hout Hxk.
        destruct (decide (x = k)) as [->|Hxk'].
        -- by rewrite decide_True by (split; [done|lia]).
        -- rewrite decide_False by (intros [? _]; done).
           rewrite decide_False by (intros [<- _]; done).
           apply IH2; [done|lia].
      * intros Hout Hxk.
        rewrite decide_False by (intros [? _]; lia).
        rewrite decide_False by (intros [<- _]; done).
        apply IH3; [done|lia].
    + assert (Hkin : k ∈ ne) by (apply (Hmem k); lia).
      split; [done|]. split.
      * intros Hout Hxk. apply IH2; [done|].
        destruct (decide (x = k)) as [->|?]; [done|lia].
      * intros Hout Hxk. apply IH3; [done|lia].
Qed.

(** Columns of sparse rows already visited are empty. *)
Lemma rebin_state_columns (self : TransitionMatrixLearner) (mat : matrix)
    (k x a : nat) :
  count_matrix (n self) mat →
  non_empty_rows self (sum_axis1 mat) ≠ [] →
  (k ≤ n self)%nat → (x < k)%nat →
  x ∉ non_empty_rows self (sum_axis1 mat) →
  cell (row (rebin_state self mat k).1 a) x = 0.
Proof.
  intros Hcm Hne Hk Hx Hout. revert a.
  induction k as [|k IH]; intros a; [lia|].
  destruct (rebin_state_inv self mat k Hcm) as [Hinv _]; [lia|].
  destruct Hinv as (Hsq & Hrs & Hpos & Hmem).
  rewrite rebin_state_S. unfold rebin_step.
  case_bool_decide as Hs.
  - destruct (rebin_donor self _ k) as [j|] eqn:Hd.
    2:{ by apply rebin_donor_None in Hd. }
    apply rebin_donor_Some in Hd as (Hj & _).
    assert (Hjn : (j < n self)%nat).
    { apply non_empty_rows_range in Hj. destruct Hcm as [[Hl _] _]. lia. }
    assert (Hkj : k ≠ j).
    { intros ->. apply (Hmem j) in Hj; lia. }
    cbn [fst].
    rewrite (merge_into_cell (n self)) by (done || lia).
    destruct (decide (x = k)) as [->|Hxk].
    + by rewrite decide_True by (by right).
    + assert (Hxj : x ≠ j) by (by intros ->).
      case_decide; [done|].
      rewrite (decide_False (P := x = j)) by done.
      rewrite !IH by lia. case_decide; lia.
  - assert (Hkin : k ∈ non_empty_rows self (sum_axis1 mat))
      by (apply (Hmem k); lia).
    apply IH; [lia|].
    destruct (decide (x = k)) as [->|?]; [done|lia].
Qed.

(** X11.  When some row of a count matrix reaches [min_count], re-binning
    leaves every row either populated, with at least its raw total, or
    empty: the populated rows are the ones that were populated before the
    pass, every other row ends with total zero. *)
Theorem rebin_rows_populated_or_empty (self : TransitionMatrixLearner)
    (mat : matrix) (i : nat) (r : list Z) :
  count_matrix (n self) mat →
  populated_rows self mat ≠ [] →
  rebin_pass self mat !! i = Some r →
  (i ∈ populated_rows self mat
   ∧ min_count self ≤ sum_ (row mat i)
   ∧ sum_ (row mat i) ≤ sum_ r)
  ∨ ((i ∉ populated_rows self mat) ∧ sum_ r = 0).
Proof.
  intros Hcm Hne Hr. rewrite populated_rows_initial in *.
  assert (Hlen : length mat = n self) by (by destruct Hcm as [[-> _] _]).
  unfold rebin_pass in Hr. rewrite Hlen in Hr.
  destruct (rebin_state_inv self mat (n self) Hcm) as [Hinv _]; [lia|].
  destruct Hinv as (Hsq & Hrs & _).
  assert (Hi : (i < n self)%nat).
  { apply lookup_lt_Some in Hr. destruct Hsq as [Hl _]. lia. }
  destruct (rebin_state_totals self mat (n self) i Hcm Hne) as (H1 & H2 & _);
    [lia|lia|].
  assert (Hsum : cell (rebin_state self mat (n self)).2 i = sum_ r).
  { by rewrite Hrs, cell_sum_axis1, (row_lookup _ _ _ Hr). }
  rewrite Hsum in H1, H2. rewrite cell_sum_axis1 in H1.
  destruct (decide (i ∈ non_empty_rows self (sum_axis1 mat))) as [Hin|Hout].
  - left. split; [done|]. specialize (H1 Hin).
    apply non_empty_rows_elem in Hin as [_ Hin].
    rewrite cell_sum_axis1 in Hin. split; [done|lia].
  - right. split; [done|]. by apply H2.
Qed.

Lemma rebin_rows_populated_or_empty_witness :
  (1%nat ∉ populated_rows learner_rebin counts_sparse_middle)
  ∧ ∃ r, rebin_pass learner_rebin counts_sparse_middle !! 1%nat = Some r
         ∧ sum_ r = 0.
Proof.
  assert (Hcm : count_matrix (n learner_rebin) counts_sparse_middle).
  { split; [split; [reflexivity|repeat constructor]|].
    repeat first [apply Forall_cons; split | apply Forall_nil]; lia. }
  destruct (rebin_rows_populated_or_empty learner_rebin
              counts_sparse_middle 1 [0; 0; 0] Hcm)
    as [[Hin _]|[Hout Hsum]].
  - discriminate.
  - reflexivity.
  - exfalso. vm_compute in Hin.
    apply elem_of_cons in Hin as [Hin|Hin]; [discriminate|].
    apply elem_of_cons in Hin as [Hin|Hin]; [discriminate|].
    by apply elem_of_nil in Hin.
  - split; [exact Hout|]. exists [0; 0; 0]. split; [reflexivity|exact Hsum].
Defined.

(** X12.  When some row of a count matrix reaches [min_count], re-binning
    also empties the column of every sparse bucket: no transition into an
    eliminated bucket is left. *)
Theorem rebin_columns_emptied (self : TransitionMatrixLearner)
    (mat : matrix) (x a : nat) :
  count_matrix (n self) mat →
  populated_rows self mat ≠ [] →
  (x < n self)%nat →
  x ∉ populated_rows self mat →
  cell (row (rebin_pass self mat) a) x = 0.
Proof.
  intros Hcm Hne Hx Hout. rewrite populated_rows_initial in *.
  assert (Hlen : length mat = n self) by (by destruct Hcm as [[-> _] _]).
  unfold rebin_pass. rewrite Hlen.
  by apply rebin_state_columns.
Qed.

Lemma rebin_columns_emptied_witness :
  cell (row (rebin_pass learner_rebin counts_sparse_middle) 0) 1 = 0.
Proof.
  apply rebin_columns_emptied.
  - split; [split; [reflexivity|repeat constructor]|].
    repeat first [apply Forall_cons; split | apply Forall_nil]; lia.
  - discriminate.
  - unfold n. simpl. lia.
  - intros Hin. vm_compute in Hin.
    apply elem_of_cons in Hin as [Hin|Hin]; [discriminate|].
    apply elem_of_cons in Hin as [Hin|Hin]; [discriminate|].
    by apply elem_of_nil in Hin.
Defined.

Lemma rebin_state_no_donor (self : TransitionMatrixLearner) (mat : matrix)
    (k : nat) :
  non_empty_rows self (sum_axis1 mat) = [] →
  rebin_state self mat k = (mat, sum_axis1 mat).
Proof.
  intros Hne. induction k as [|k IH]; [done|].
  rewrite rebin_state_S, IH, Hne. unfold rebin_step.
  by case_bool_decide.
Qed.

(** X13.  When no row reaches [min_count] there is no donor: re-binning
    returns the matrix unchanged. *)
Theorem rebin_without_donor (self : TransitionMatrixLearner) (mat : matrix) :
  populated_rows self mat = [] → rebin_pass self mat = mat.
Proof.
  intros Hne. rewrite populated_rows_initial in Hne.
  unfold rebin_pass. by rewrite rebin_state_no_donor.
Qed.

Lemma rebin_without_donor_witness :
  rebin_pass learner_rebin [[1; 0; 0]; [0; 0; 1]; [0; 1; 0]]
  = [[1; 0; 0]; [0; 0; 1]; [0; 1; 0]].
Proof. apply rebin_without_donor. reflexivity. Defined.

Lemma zero_sum_cell (r : list Z) (b : nat) :
  Forall (λ c, 0 ≤ c) r → sum_ r = 0 → cell r b = 0.
Proof.
  intros Hr. revert b. induction Hr as [|x r Hx Hr IH]; intros b Hs; [done|].
  change (x + sum_ r = 0) in Hs. pose proof (sum_nonneg r Hr).
  destruct b as [|b].
  - change (x = 0). lia.
  - change (cell r b = 0). apply IH. lia.
Qed.

(** Merging a row that is already empty, with an empty column, changes
    nothing. *)
Lemma merge_into_empty (k i j : nat) (mat : matrix) :
  square k mat → (i < k)%nat → (j < k)%nat → i ≠ j →
  (∀ b, cell (row mat i) b = 0) →
  (∀ a, cell (row mat a) i = 0) →
  merge_into i j mat = mat.
Proof.
  intros Hsq Hi Hj Hij Hrow Hcol.
  apply (matrix_ext k); [by apply merge_into_square|done|].
  intros a b _ _. rewrite (merge_into_cell k) by done.
  case_decide as Hab.
  - destruct Hab as [->| ->]; by rewrite ?Hrow, ?Hcol.
  - rewrite !Hrow, !Hcol. repeat case_decide; lia.
Qed.

(** X14.  Re-binning a count matrix a second time changes nothing. *)
Theorem rebin_pass_idempotent (self : TransitionMatrixLearner)
    (mat : matrix) :
  count_matrix (n self) mat →
  rebin_pass self (rebin_pass self mat) = rebin_pass self mat.
Proof.
  intros Hcm.
  destruct (decide (non_empty_rows self (sum_axis1 mat) = [])) as [Hne|Hne].
  { unfold rebin_pass at 2. rewrite rebin_state_no_donor by done.
    reflexivity. }
  assert (Hlen : length mat = n self) by (by destruct Hcm as [[-> _] _]).
  set (post := rebin_pass self mat).
  destruct (rebin_state_inv self mat (n self) Hcm) as [Hinv _]; [lia|].
  destruct Hinv as (Hsq & Hrs & Hpos & Hmem).
  assert (Hpost : (rebin_state self mat (n self)).1 = post)
    by (subst post; unfold rebin_pass; by rewrite Hlen).
  rewrite Hpost in Hsq, Hrs. rewrite Hrs in Hmem, Hpos.
  assert (Hnn : Forall (Forall (λ c, 0 ≤ c)) post).
  { rewrite <- Hpost. apply rebin_state_nonneg. by destruct Hcm. }
  assert (Hlp : length post = n self) by (by destruct Hsq).
  assert (Hne' : non_empty_rows self (sum_axis1 post)
                 = non_empty_rows self (sum_axis1 mat)).
  { assert (Hl1 : length (sum_axis1 post) = n self)
      by (unfold sum_axis1; by rewrite length_fmap).
    assert (Hl2 : length (sum_axis1 mat) = n self)
      by (unfold sum_axis1; by rewrite length_fmap).
    unfold non_empty_rows. rewrite Hl1, Hl2.
    apply filter_ext_in. intros x Hx. apply elem_of_seq in Hx.
    rewrite <- (Hmem x) by lia. rewrite non_empty_rows_elem. intuition lia. }
  assert (Hstate : ∀ k, (k ≤ n self)%nat →
                        rebin_state self post k = (post, sum_axis1 post)).
  { induction k as [|k IH]; intros Hk; [done|].
    rewrite rebin_state_S, IH, Hne' by lia. unfold rebin_step. cbn [fst snd].
    case_bool_decide as Hs; [|done].
    destruct (rebin_donor self _ k) as [j|] eqn:Hd; [|done].
    apply rebin_donor_Some in Hd as (Hj & _).
    assert (Hjn : (j < n self)%nat).
    { apply non_empty_rows_range in Hj. lia. }
    assert (Hkout : k ∉ non_empty_rows self (sum_axis1 mat)).
    { intros Hin. apply (Hmem k) in Hin; lia. }
    assert (Hkj : k ≠ j) by (by intros ->).
    assert (Hzero : cell (sum_axis1 post) k = 0).
    { destruct (rebin_state_totals self mat (n self) k Hcm Hne)
        as (_ & H2 & _); [lia|lia|].
      cbv zeta in H2. rewrite Hrs in H2. apply H2; [done|lia]. }
    f_equal.
    - apply (merge_into_empty (n self)); [done|lia|done|done| |].
      + intros b. apply zero_sum_cell; [by apply row_nonneg|].
        by rewrite <- cell_sum_axis1.
      + intros a. rewrite <- Hpost.
        apply rebin_state_columns; [done|done|lia|lia|done].
    - rewrite Hzero. unfold merge_sums.
      assert (Hl : length (sum_axis1 post) = n self)
        by (unfold sum_axis1; by rewrite length_fmap).
      destruct (lookup_lt_is_Some_2 (sum_axis1 post) j ltac:(lia)) as [sj Hsj].
      destruct (lookup_lt_is_Some_2 (sum_axis1 post) k ltac:(lia)) as [sk Hsk].
      rewrite (cell_lookup _ _ _ Hsj), Z.add_0_r.
      rewrite (list_insert_id _ j sj Hsj).
      rewrite (cell_lookup _ _ _ Hsk) in Hzero. subst sk.
      by rewrite (list_insert_id _ k 0 Hsk). }
  unfold rebin_pass at 1. by rewrite Hlp, Hstate.
Qed.

Lemma rebin_pass_idempotent_witness :
  rebin_pass learner_rebin (rebin_pass learner_rebin counts_sparse_middle)
  = rebin_pass learner_rebin counts_sparse_middle.
Proof.
  apply rebin_pass_idempotent.
  split; [split; [reflexivity|repeat constructor]|].
  repeat first [apply Forall_cons; split | apply Forall_nil]; lia.
Defined.

(** ** [_clean_matrix]: labels and shape *)

Lemma rebin_state_square (self : TransitionMatrixLearner) (mat : matrix)
    (kk k : nat) :
  square kk mat → (k ≤ kk)%nat → square kk (rebin_state self mat k).1.
Proof.
  intros Hsq. induction k as [|k IH]; intros Hk; [done|].
  specialize (IH ltac:(lia)). rewrite rebin_state_S. unfold rebin_step.
  case_bool_decide; [|done].
  destruct (rebin_donor self _ k) as [j|] eqn:Hd; [|done].
  apply rebin_donor_Some in Hd as (Hj & _).
  apply non_empty_rows_range in Hj. destruct Hsq as [Hl Hrows].
  apply merge_into_square; [done|lia|lia].
Qed.

Lemma laplace_qsquare (a : Q) (k : nat) (mat : matrix) :
  square k mat → qsquare k (laplace a mat).
Proof.
  intros [Hl Hrows]. unfold laplace. split; [by rewrite length_fmap|].
  apply Forall_fmap. eapply Forall_impl; [exact Hrows|].
  intros r Hr. simpl. case_bool_decide.
  - unfold laplace_row. by rewrite !length_fmap.
  - by rewrite length_replicate.
Qed.

Lemma ix_select_square (keep : list bool) (mat : matrix) :
  square (length (nonzero keep)) (ix_select keep keep mat).
Proof.
  unfold ix_select. split; [by rewrite length_fmap|].
  apply Forall_fmap, Forall_forall. intros a _. simpl.
  by rewrite length_fmap.
Qed.

(** X15.  The label list a cleaning pass stores fits the matrix that
    pass returns: the matrix is square, one row and one column per stored
    label.  Without a strategy and under re-binning the labels are all
    the buckets. *)
Theorem clean_matrix_labels_fit (self : TransitionMatrixLearner)
    (mat : matrix) :
  square (n self) mat →
  let out := _clean_matrix self mat in
  qsquare (length (cleaned_buckets out.1)) out.2
  ∧ (auto_rebin self = true ∨ drop_empty self = false →
     cleaned_buckets out.1 = buckets self).
Proof.
  intros Hsq out. subst out. unfold _clean_matrix.
  cbn [fst snd cleaned_buckets set_cleaned_buckets].
  pose proof Hsq as [Hlen _].
  unfold strategy_pass. destruct (auto_rebin self) eqn:Hre.
  - cbn [fst snd]. split; [|done]. apply laplace_qsquare.
    unfold rebin_pass. rewrite Hlen. fold (n self).
    by apply rebin_state_square.
  - destruct (drop_empty self) eqn:Hdr; cbn [fst snd].
    + split; [|by intros [?|?]]. apply laplace_qsquare.
      rewrite kept_labels_nonzero.
      * rewrite length_fmap. apply ix_select_square.
      * unfold keep_mask, sum_axis1. rewrite !length_fmap. by rewrite Hlen.
    + split; [|done]. by apply laplace_qsquare.
Qed.

Lemma clean_matrix_labels_fit_witness :
  qsquare 1 (_clean_matrix learner_drop counts_sparse_second).2
  ∧ cleaned_buckets (_clean_matrix learner_drop counts_sparse_second).1
    = [0].
Proof.
  split; [|reflexivity].
  apply (clean_matrix_labels_fit learner_drop counts_sparse_second).
  split; [reflexivity|]. repeat constructor.
Defined.

(** ** [_clean_matrix]: mass under dropping *)

Lemma sum_drop_nonneg (vals : list Z) (k : nat) :
  Forall (λ c, 0 ≤ c) vals → 0 ≤ sum_ (drop k vals).
Proof. intros Hv. apply sum_nonneg. by apply Forall_drop. Qed.

Lemma sum_drop_step (vals : list Z) (k : nat) :
  sum_ (drop k vals) = cell vals k + sum_ (drop (S k) vals).
Proof.
  unfold cell. destruct (vals !! k) as [x|] eqn:Hx.
  - by rewrite (drop_S _ _ _ Hx).
  - apply lookup_ge_None_1 in Hx. by rewrite !drop_ge by lia.
Qed.

(** Summing a bounded quantity over the selected positions of a mask
    cannot exceed the sum of the bounds over all positions. *)
Lemma masked_sum_le (vals : list Z) (F : nat → Z) (k : nat)
    (keep : list bool) :
  Forall (λ c, 0 ≤ c) vals →
  (∀ a, 0 ≤ F a ∧ F a ≤ cell vals a) →
  0 ≤ sum_ (F <$> nonzero_from k keep)
  ∧ sum_ (F <$> nonzero_from k keep) ≤ sum_ (drop k vals).
Proof.
  intros Hv HF. revert k. induction keep as [|b keep IH]; intros k.
  - simpl. split; [done|]. by apply sum_drop_nonneg.
  - specialize (IH (S k)). rewrite (sum_drop_step vals k).
    pose proof (HF k) as [Hk0 Hk1]. simpl. destruct b.
    + rewrite fmap_cons.
      change (sum_ (F k :: (F <$> nonzero_from (S k) keep)))
        with (F k + sum_ (F <$> nonzero_from (S k) keep)). lia.
    + lia.
Qed.

(** X16.  Dropping never adds mass: the matrix handed to the Laplace step
    holds at most the mass of the raw count matrix. *)
Theorem drop_never_adds_mass (self : TransitionMatrixLearner)
    (mat : matrix) :
  auto_rebin self = false →
  drop_empty self = true →
  Forall (Forall (λ c, 0 ≤ c)) mat →
  0 ≤ total_mass (strategy_pass self mat).1
  ∧ total_mass (strategy_pass self mat).1 ≤ total_mass mat.
Proof.
  intros Hre Hdr Hm. unfold strategy_pass. rewrite Hre, Hdr. cbn [fst].
  set (keep := keep_mask self (sum_axis1 mat)).
  unfold total_mass at 1 2, sum_axis1 at 1 2, ix_select.
  rewrite <- !list_fmap_compose.
  assert (Hrows : Forall (λ c, 0 ≤ c) (sum_axis1 mat)).
  { unfold sum_axis1. apply Forall_fmap.
    eapply Forall_impl; [exact Hm|]. intros r Hr. by apply sum_nonneg. }
  destruct (masked_sum_le (sum_axis1 mat)
              (sum_ ∘ (λ a, (λ b, cell (row mat a) b) <$> nonzero keep))
              0 keep Hrows) as [H0 H1].
  - intros a. simpl. rewrite cell_sum_axis1.
    destruct (masked_sum_le (row mat a) (λ b, cell (row mat a) b) 0 keep)
      as [Ha0 Ha1].
    + by apply row_nonneg.
    + intros b. split; [|lia]. by apply cell_nonneg, row_nonneg.
    + split; [exact Ha0|exact Ha1].
  - split; [exact H0|exact H1].
Qed.

Lemma drop_never_adds_mass_witness :
  total_mass (strategy_pass learner_drop counts_sparse_second).1
  ≤ total_mass counts_sparse_second.
Proof.
  apply (drop_never_adds_mass learner_drop counts_sparse_second).
  - reflexivity.
  - reflexivity.
  - repeat first [apply Forall_cons; split | apply Forall_nil]; lia.
Defined.

(** ** [fit] and [get_matrix] together *)

Lemma fit_groups_lookup (groups : list (string * list transition))
    (self est : TransitionMatrixLearner) :
  fit_groups self groups = Ok est →
  NoDup groups.*1 →
  (∀ g, g ∉ groups.*1 → _mat_by_gh est !! g = _mat_by_gh self !! g)
  ∧ (∀ g grp, (g, grp) ∈ groups →
       ∃ counts, _count_matrix self (pairs_of grp) = Ok counts
         ∧ _mat_by_gh est !! g = Some (_clean_matrix self counts).2).
Proof.
  revert self. induction groups as [|[g0 grp0] rest IH]; intros self Hfit Hnd.
  - injection Hfit as <-. split; [done|].
    intros g grp Hin. by apply elem_of_nil in Hin.
  - simpl in Hfit.
    destruct (_count_matrix self (pairs_of grp0)) as [counts|e] eqn:Hcount;
      [|done].
    simpl in Hfit.
    set (self' := set_mat_by_gh (_clean_matrix self counts).1 g0
                    (_clean_matrix self counts).2) in *.
    assert (Hcfg : config self' = config self) by done.
    rewrite fmap_cons in Hnd. cbn [fst] in Hnd.
    apply NoDup_cons in Hnd as [Hg0 Hnd].
    destruct (IH self' Hfit Hnd) as (Hother & Hin).
    split.
    + intros g Hg. rewrite fmap_cons in Hg. cbn [fst] in Hg.
      apply not_elem_of_cons in Hg as [Hne Hg].
      rewrite (Hother g Hg). subst self'.
      cbn [_mat_by_gh set_mat_by_gh]. by rewrite lookup_insert_ne.
    + intros g grp Hgg. apply elem_of_cons in Hgg as [[= -> ->]|Hgg].
      * exists counts. split; [done|]. rewrite (Hother g0 Hg0).
        subst self'. cbn [_mat_by_gh set_mat_by_gh].
        by rewrite lookup_insert_eq.
      * destruct (Hin g grp Hgg) as (c & Hc1 & Hc2).
        exists c. rewrite (count_matrix_config self' self) in Hc1 by done.
        split; [done|].
        by rewrite Hc2, (proj1 (clean_matrix_config self' self c Hcfg)).
Qed.

(** The three phases of [fit], with the estimator between them. *)
Lemma fit_phases (self est : TransitionMatrixLearner)
    (merged : list transition) (group_col : bool) :
  fit self merged group_col = Ok est →
  ∃ cg self3,
    _count_matrix self (pairs_of merged) = Ok cg
    ∧ (if group_col
       then fit_groups
              (set_mat_global (_clean_matrix self cg).1
                 (_clean_matrix self cg).2)
              (groupby string_le group_t merged)
       else Ok (set_mat_global (_clean_matrix self cg).1
                  (_clean_matrix self cg).2)) = Ok self3
    ∧ fit_stages self3 (groupby Z.le bucket_t merged) = Ok est.
Proof.
  unfold fit. intros Hfit.
  destruct (_count_matrix self (pairs_of merged)) as [cg|e]; [|done].
  exists cg.
  pose (self2 := set_mat_global (_clean_matrix self cg).1
                   (_clean_matrix self cg).2).
  change (rbind (if group_col
                 then fit_groups self2 (groupby string_le group_t merged)
                 else Ok self2)
            (λ s, fit_stages s (groupby Z.le bucket_t merged)) = Ok est)
    in Hfit.
  fold self2.
  destruct (if group_col
            then fit_groups self2 (groupby string_le group_t merged)
            else Ok self2) as [self3|e]; [|done].
  by exists self3.
Qed.

(** What a successful [fit] leaves in the two dictionaries. *)
Lemma fit_dictionaries (self est : TransitionMatrixLearner)
    (merged : list transition) (group_col : bool) :
  fit self merged group_col = Ok est →
  (∀ k, k ∉ bucket_t <$> merged →
        _mat_by_stage est !! k = _mat_by_stage self !! k)
  ∧ (∀ p, p ∈ merged →
       ∃ counts,
         _count_matrix self
           (pairs_of (filter (λ r, bucket_t r = bucket_t p) merged))
         = Ok counts
         ∧ _mat_by_stage est !! bucket_t p
           = Some (_clean_matrix self counts).2)
  ∧ (group_col = false → _mat_by_gh est = _mat_by_gh self)
  ∧ (group_col = true →
     (∀ g, g ∉ group_t <$> merged →
           _mat_by_gh est !! g = _mat_by_gh self !! g)
     ∧ (∀ p, p ∈ merged →
          ∃ counts,
            _count_matrix self
              (pairs_of (filter (λ r, group_t r = group_t p) merged))
            = Ok counts
            ∧ _mat_by_gh est !! group_t p
              = Some (_clean_matrix self counts).2)).
Proof.
  intros Hfit.
  destruct (fit_phases _ _ _ _ Hfit) as (cg & self3 & Hcg & Hgr & Hst).
  set (self2 := set_mat_global (_clean_matrix self cg).1
                  (_clean_matrix self cg).2) in *.
  assert (Hcfg2 : config self2 = config self) by done.
  destruct (fit_stages_spec _ _ _ Hst (groupby_keys_NoDup Z.le bucket_t merged))
    as (_ & _ & Hgh & _ & Hother & Hin & _).
  assert (H3 : config self3 = config self
               ∧ _mat_by_stage self3 = _mat_by_stage self).
  { destruct group_col.
    - apply fit_groups_spec in Hgr as (Hc & _ & Hs & _).
      by rewrite Hc, Hs.
    - by injection Hgr as <-. }
  destruct H3 as [Hcfg3 Hs3].
  split; [|split; [|split]].
  - intros k Hk. rewrite Hother, Hs3; [done|]. by rewrite groupby_key_elem.
  - intros p Hp.
    destruct (Hin (bucket_t p)
                (filter (λ r, bucket_t r = bucket_t p) merged))
      as (c & Hc1 & Hc2).
    { apply groupby_elem. split; [|done].
      apply list_elem_of_fmap. by exists p. }
    exists c. rewrite (count_matrix_config self3 self) in Hc1 by done.
    split; [done|].
    by rewrite Hc2, (proj1 (clean_matrix_config self3 self c Hcfg3)).
  - intros ->. injection Hgr as <-. by rewrite Hgh.
  - intros ->.
    destruct (fit_groups_lookup _ _ _ Hgr
                (groupby_keys_NoDup string_le group_t merged))
      as (Hgo & Hgi).
    split.
    + intros g Hg. rewrite Hgh, Hgo; [done|]. by rewrite groupby_key_elem.
    + intros p Hp.
      destruct (Hgi (group_t p)
                  (filter (λ r, group_t r = group_t p) merged))
        as (c & Hc1 & Hc2).
      { apply groupby_elem. split; [|done].
        apply list_elem_of_fmap. by exists p. }
      exists c. rewrite (count_matrix_config self2 self) in Hc1 by done.
      split; [done|].
      by rewrite Hgh, Hc2, (proj1 (clean_matrix_config self2 self c Hcfg2)).
Qed.

Lemma fit_groups_ok (groups : list (string * list transition))
    (self : TransitionMatrixLearner) :
  (0 < n self)%nat → ∃ est, fit_groups self groups = Ok est.
Proof.
  revert self. induction groups as [|[g grp] rest IH]; intros self Hn.
  - by eexists.
  - simpl. destruct (count_matrix_spec self (pairs_of grp) Hn) as (c & -> & _).
    cbn [rbind]. apply IH. exact Hn.
Qed.

Lemma fit_stages_ok (groups : list (Z * list transition))
    (self : TransitionMatrixLearner) :
  (0 < n self)%nat → ∃ est, fit_stages self groups = Ok est.
Proof.
  revert self. induction groups as [|[k grp] rest IH]; intros self Hn.
  - by eexists.
  - simpl. destruct (count_matrix_spec self (pairs_of grp) Hn) as (c & -> & _).
    cbn [rbind]. apply IH. exact Hn.
Qed.

(** X17.  With at least one bucket [fit] never raises, whatever the
    frame holds and whether or not groups are requested. *)
Theorem fit_succeeds (self : TransitionMatrixLearner)
    (merged : list transition) (group_col : bool) :
  (0 < n self)%nat → ∃ est, fit self merged group_col = Ok est.
Proof.
  intros Hn. unfold fit.
  destruct (count_matrix_spec self (pairs_of merged) Hn) as (cg & -> & _).
  cbn [rbind].
  pose (self2 := set_mat_global (_clean_matrix self cg).1
                   (_clean_matrix self cg).2).
  change (∃ est,
            rbind (if group_col
                   then fit_groups self2 (groupby string_le group_t merged)
                   else Ok self2)
              (λ s, fit_stages s (groupby Z.le bucket_t merged)) = Ok est).
  assert (Hn2 : (0 < n self2)%nat) by exact Hn.
  assert (H3 : ∃ self3,
                 (if group_col
                  then fit_groups self2 (groupby string_le group_t merged)
                  else Ok self2) = Ok self3 ∧ (0 < n self3)%nat).
  { destruct group_col.
    - destruct (fit_groups_ok (groupby string_le group_t merged) self2 Hn2)
        as [s Hs].
      exists s. split; [done|].
      apply fit_groups_spec in Hs as (Hc & _).
      unfold n in *. replace (buckets s) with (buckets self2); [done|].
      by injection Hc.
    - by exists self2. }
  destruct H3 as (self3 & -> & Hn3). cbn [rbind].
  by apply fit_stages_ok.
Qed.

Lemma fit_succeeds_witness :
  ∃ est, fit learner_default frame_groups true = Ok est.
Proof. apply fit_succeeds. unfold n. simpl. lia. Defined.

(** X18.  Without any bucket [fit] raises [IndexError] as soon as the
    frame has a row, before anything is stored. *)
Theorem fit_no_buckets (self : TransitionMatrixLearner)
    (merged : list transition) (group_col : bool) :
  buckets self = [] → merged ≠ [] →
  fit self merged group_col = Raise IndexError.
Proof.
  intros Hb Hm. unfold fit.
  rewrite (count_matrix_empty_buckets self _ Hb).
  by destruct merged.
Qed.

Lemma fit_no_buckets_witness :
  fit (mkLearner [] 1 false false 10 7 [] None ∅ ∅) frame_groups true
  = Raise IndexError.
Proof. apply fit_no_buckets; [reflexivity|discriminate]. Defined.

(** X19.  After a successful [fit] the global query returns the cleaned
    count of all the transitions of the frame. *)
Theorem fit_get_global (self est : TransitionMatrixLearner)
    (merged : list transition) (group_col : bool) :
  fit self merged group_col = Ok est →
  ∃ counts,
    _count_matrix self (pairs_of merged) = Ok counts
    ∧ get_matrix est None None = Ok (_clean_matrix self counts).2.
Proof.
  intros Hfit.
  destruct (fit_spec _ _ _ _ Hfit) as (cg & Hcg & _ & Hg & _).
  exists cg. split; [done|]. unfold get_matrix. simpl. by rewrite Hg.
Qed.

Lemma fit_get_global_witness :
  ∃ counts,
    _count_matrix learner_default (pairs_of frame_groups) = Ok counts
    ∧ get_matrix est_plain None None
      = Ok (_clean_matrix learner_default counts).2.
Proof.
  apply (fit_get_global learner_default est_plain frame_groups false).
  vm_compute. reflexivity.
Defined.

(** X20.  After a successful [fit] a query by stage returns, for a raw
    origin value of the frame, the cleaned count of the transitions with
    that origin; for any other value it answers as the estimator did
    before the fit, with [KeyError] when no stage matrix was stored. *)
Theorem fit_get_stage (self est : TransitionMatrixLearner)
    (merged : list transition) (group_col : bool) :
  fit self merged group_col = Ok est →
  (∀ p, p ∈ merged →
     ∃ counts,
       _count_matrix self
         (pairs_of (filter (λ r, bucket_t r = bucket_t p) merged))
       = Ok counts
       ∧ get_matrix est None (Some (bucket_t p))
         = Ok (_clean_matrix self counts).2)
  ∧ (∀ k, k ∉ bucket_t <$> merged →
       get_matrix est None (Some k) = get_matrix self None (Some k))
  ∧ (∀ k, k ∉ bucket_t <$> merged → _mat_by_stage self = ∅ →
       get_matrix est None (Some k) = Raise KeyError).
Proof.
  intros Hfit.
  destruct (fit_dictionaries _ _ _ _ Hfit) as (Hother & Hin & _).
  assert (Hget : ∀ s k, get_matrix s None (Some k)
                        = match _mat_by_stage s !! k with
                          | Some m => Ok m
                          | None => Raise KeyError
                          end) by done.
  split; [|split].
  - intros p Hp. destruct (Hin p Hp) as (c & Hc1 & Hc2).
    exists c. split; [done|]. by rewrite Hget, Hc2.
  - intros k Hk. by rewrite !Hget, Hother.
  - intros k Hk Hfresh. by rewrite Hget, Hother, Hfresh, lookup_empty.
Qed.

Lemma fit_get_stage_witness :
  get_matrix est_plain None (Some 999) = Raise KeyError.
Proof.
  assert (Hfit : fit learner_default frame_groups false = Ok est_plain)
    by (vm_compute; reflexivity).
  refine (proj2 (proj2 (fit_get_stage learner_default est_plain
                          frame_groups false Hfit)) 999 _ eq_refl).
  intros Hin. vm_compute in Hin.
  repeat (apply elem_of_cons in Hin as [Hin|Hin]; [discriminate|]).
  by apply elem_of_nil in Hin.
Defined.

(** X21.  After a successful [fit] with groups a query by group returns,
    for a group label of the frame, the cleaned count of the transitions
    of that group (whatever stage is passed along); a [fit] without
    groups leaves the group matrices as they were. *)
Theorem fit_get_group (self est : TransitionMatrixLearner)
    (merged : list transition) (group_col : bool) :
  fit self merged group_col = Ok est →
  (group_col = true →
   ∀ p stage, p ∈ merged →
     ∃ counts,
       _count_matrix self
         (pairs_of (filter (λ r, group_t r = group_t p) merged))
       = Ok counts
       ∧ get_matrix est (Some (group_t p)) stage
         = Ok (_clean_matrix self counts).2)
  ∧ (group_col = false →
     ∀ g stage, get_matrix est (Some g) stage
                = get_matrix self (Some g) stage).
Proof.
  intros Hfit.
  destruct (fit_dictionaries _ _ _ _ Hfit) as (_ & _ & Hno & Hyes).
  split.
  - intros Hgc p stage Hp. destruct (Hyes Hgc) as [_ Hin].
    destruct (Hin p Hp) as (c & Hc1 & Hc2).
    exists c. split; [done|]. by rewrite get_matrix_gh_first, Hc2.
  - intros Hgc g stage. by rewrite !get_matrix_gh_first, (Hno Hgc).
Qed.

Lemma fit_get_group_witness :
  ∃ counts,
    _count_matrix learner_default
      (pairs_of (filter (λ r, group_t r = group_t (mkTransition 0 0 "b"))
                   frame_groups))
    = Ok counts
    ∧ get_matrix est_groups (Some (group_t (mkTransition 0 0 "b"))) None
      = Ok (_clean_matrix learner_default counts).2.
Proof.
  assert (Hfit : fit learner_default frame_groups true = Ok est_groups)
    by (vm_compute; reflexivity).
  apply (proj1 (fit_get_group learner_default est_groups frame_groups true
                  Hfit) eq_refl (mkTransition 0 0 "b") None).
  apply list_elem_of_further, list_elem_of_further, list_elem_of_here.
Defined.

(** X22.  [fit] does not clear the dictionaries: after a second [fit] on
    another frame, a stage of the first frame whose origin value is
    absent from the second still answers with the matrix of the first
    fit. *)
Theorem refit_keeps_stale_stage (self e1 e2 : TransitionMatrixLearner)
    (frame1 frame2 : list transition) (g1 g2 : bool) (p : transition) :
  fit self frame1 g1 = Ok e1 →
  fit e1 frame2 g2 = Ok e2 →
  p ∈ frame1 →
  bucket_t p ∉ bucket_t <$> frame2 →
  ∃ m, get_matrix e1 None (Some (bucket_t p)) = Ok m
       ∧ get_matrix e2 None (Some (bucket_t p)) = Ok m.
Proof.
  intros H1 H2 Hp Hout.
  destruct (fit_dictionaries _ _ _ _ H1) as (_ & Hin & _).
  destruct (fit_dictionaries _ _ _ _ H2) as (Hother & _).
  destruct (Hin p Hp) as (c & _ & Hc).
  exists (_clean_matrix self c).2.
  assert (Hget : ∀ s k, get_matrix s None (Some k)
                        = match _mat_by_stage s !! k with
                          | Some m => Ok m
                          | None => Raise KeyError
                          end) by done.
  by rewrite !Hget, (Hother _ Hout), Hc.
Qed.

Lemma refit_keeps_stale_stage_witness :
  ∃ m,
    get_matrix est_same_bucket None
      (Some (bucket_t (mkTransition 17 17 "a"))) = Ok m
    ∧ get_matrix est_refit None
        (Some (bucket_t (mkTransition 17 17 "a"))) = Ok m.
Proof.
  apply (refit_keeps_stale_stage learner_default est_same_bucket est_refit
           frame_same_bucket frame_groups false false
           (mkTransition 17 17 "a")).
  - vm_compute. reflexivity.
  - vm_compute. reflexivity.
  - apply list_elem_of_here.
  - intros Hin. vm_compute in Hin.
    repeat (apply elem_of_cons in Hin as [Hin|Hin]; [discriminate|]).
    by apply elem_of_nil in Hin.
Defined.

Lemma learner_eq (s1 s2 : TransitionMatrixLearner) :
  config s1 = config s2 →
  cleaned_buckets s1 = cleaned_buckets s2 →
  _mat_global s1 = _mat_global s2 →
  _mat_by_gh s1 = _mat_by_gh s2 →
  _mat_by_stage s1 = _mat_by_stage s2 →
  s1 = s2.
Proof.
  destruct s1, s2. unfold config. simpl.
  intros [= -> -> -> -> -> ->] -> -> -> ->. reflexivity.
Qed.

(** X23.  Fitting again on the same frame changes nothing: the estimator
    a successful [fit] returns is a fixed point of that [fit]. *)
Theorem fit_idempotent (self est : TransitionMatrixLearner)
    (merged : list transition) (group_col : bool) :
  fit self merged group_col = Ok est →
  fit est merged group_col = Ok est.
Proof.
  intros Hfit.
  destruct (fit_spec _ _ _ _ Hfit)
    as (cg & Hcg & Hcfg & Hg & _ & _ & Hlast & Hnil).
  destruct (fit_dictionaries _ _ _ _ Hfit) as (Hso & Hsi & Hgno & Hgyes).
  assert (Hn : ∃ est2, fit est merged group_col = Ok est2).
  { unfold fit. rewrite (count_matrix_config est self) by done.
    rewrite Hcg. cbn [rbind].
    pose (self2 := set_mat_global (_clean_matrix est cg).1
                     (_clean_matrix est cg).2).
    change (∃ est2,
              rbind (if group_col
                     then fit_groups self2
                            (groupby string_le group_t merged)
                     else Ok self2)
                (λ s, fit_stages s (groupby Z.le bucket_t merged))
              = Ok est2).
    destruct (decide (0 < n est)%nat) as [Hpos|Hzero].
    - assert (H3 : ∃ self3,
                     (if group_col
                      then fit_groups self2
                             (groupby string_le group_t merged)
                      else Ok self2) = Ok self3 ∧ (0 < n self3)%nat).
      { destruct group_col.
        - destruct (fit_groups_ok (groupby string_le group_t merged)
                      self2 Hpos) as [s Hs].
          exists s. split; [done|].
          apply fit_groups_spec in Hs as (Hc & _).
          unfold n in *. replace (buckets s) with (buckets self2); [done|].
          by injection Hc.
        - by exists self2. }
      destruct H3 as (self3 & -> & Hn3). cbn [rbind].
      by apply fit_stages_ok.
    - assert (Hb : buckets self = []).
      { assert (buckets est = buckets self) as <- by (by injection Hcfg).
        unfold n in Hzero. destruct (buckets est); [done|simpl in Hzero; lia]. }
      rewrite (count_matrix_empty_buckets self _ Hb) in Hcg.
      destruct merged as [|p ps]; [|done].
      destruct group_col; by eexists. }
  destruct Hn as [est2 Hfit2]. rewrite Hfit2. f_equal.
  destruct (fit_spec _ _ _ _ Hfit2)
    as (cg2 & Hcg2 & Hcfg2 & Hg2 & _ & _ & Hlast2 & Hnil2).
  destruct (fit_dictionaries _ _ _ _ Hfit2)
    as (Hso2 & Hsi2 & Hgno2 & Hgyes2).
  rewrite (count_matrix_config est self) in Hcg2 by done.
  rewrite Hcg in Hcg2. injection Hcg2 as <-.
  apply learner_eq.
  - done.
  - destruct (last (groupby Z.le bucket_t merged)) as [[k grp]|] eqn:Hl.
    + destruct (Hlast k grp eq_refl) as (c & Hc & ->).
      destruct (Hlast2 k grp eq_refl) as (c2 & Hc2 & ->).
      rewrite (count_matrix_config est self) in Hc2 by done.
      rewrite Hc in Hc2. injection Hc2 as <-.
      apply (clean_matrix_config est self c Hcfg).
    + assert (Hm : merged = []).
      { apply (groupby_nil_inv Z.le bucket_t).
        destruct (groupby Z.le bucket_t merged) as [|x l]; [done|].
        rewrite last_cons in Hl. by destruct (last l). }
      rewrite (Hnil Hm), (Hnil2 Hm).
      apply (clean_matrix_config est self cg Hcfg).
  - rewrite Hg, Hg2. f_equal.
    apply (clean_matrix_config est self cg Hcfg).
  - destruct group_col.
    + destruct (Hgyes eq_refl) as [Hgo Hgi].
      destruct (Hgyes2 eq_refl) as [Hgo2 Hgi2].
      apply map_eq. intros g.
      destruct (decide (g ∈ group_t <$> merged)) as [Hin|Hout].
      * apply list_elem_of_fmap in Hin as (p & -> & Hp).
        destruct (Hgi p Hp) as (c & Hc & ->).
        destruct (Hgi2 p Hp) as (c2 & Hc2 & ->).
        rewrite (count_matrix_config est self) in Hc2 by done.
        rewrite Hc in Hc2. injection Hc2 as <-. f_equal.
        apply (clean_matrix_config est self c Hcfg).
      * by apply Hgo2.
    + by apply Hgno2.
  - apply map_eq. intros k.
    destruct (decide (k ∈ bucket_t <$> merged)) as [Hin|Hout].
    + apply list_elem_of_fmap in Hin as (p & -> & Hp).
      destruct (Hsi p Hp) as (c & Hc & ->).
      destruct (Hsi2 p Hp) as (c2 & Hc2 & ->).
      rewrite (count_matrix_config est self) in Hc2 by done.
      rewrite Hc in Hc2. injection Hc2 as <-. f_equal.
      apply (clean_matrix_config est self c Hcfg).
    + by apply Hso2.
Qed.

Lemma fit_idempotent_witness :
  fit est_drop frame_drop true = Ok est_drop.
Proof.
  apply (fit_idempotent learner_drop est_drop frame_drop true).
  vm_compute. reflexivity.
Defined.
